(** * Capacitated vehicle routing example ([examples/python/cvrp.py])

    A shallow embedding of the CVRP sample script and of the routing
    contract it relies on.

    - [Py]: the fragment of Python the script uses (exceptions, [xrange],
      list subscripts with negative indices, [for] loops).
    - [Routing]: the routing engine behind [pywrapcp.RoutingModel], which
      the script only calls; it is modelled from the specification
      (capacity dimension, cheapest-insertion Route Constructor, the
      interface of the routing and assignment objects).
    - [Cvrp]: the script itself: [DataProblem], [manhattan_distance],
      [CreateDistanceEvaluator], [CreateDemandEvaluator],
      [add_capacity_constraints], [print_solution], [main].
    - [Samples]: reference values and small instances.

    The facts follow the definitions: the evaluators, the selection rule,
    the construction and its invariants, the printer, the script end to
    end.

    Numbers: Python integers are [Z]; demands and capacities, which the data
    model declares as non-negative integers, are [N].  The coordinates of the
    script are integers scaled by the block size ([228/2] and [80]); under
    Python 3 the width is the float [114.0], every coordinate and every
    distance is then an integer-valued float far below 2^53, so [Z]
    arithmetic is exact for them. *)

From Stdlib Require Import ZArith NArith List Lia Bool.
From stdpp Require Import base option list gmap strings.

Local Open Scope Z_scope.

(* ================================================================== *)
(** ** Python fragments *)

Module Py.

(** Exceptions that can leave a call.  [KeyError] and [IndexError] are
    Python's; [InvalidInstance] and [ConstructionInfeasible] are the two
    engine errors of the specification's taxonomy. *)
Inductive exn : Type :=
| KeyError (key : Z)
| IndexError
| DimensionNotFound (name : string)
| InvalidInstance
| ConstructionInfeasible (unrouted : list nat).

(** Result of running a piece of the script: a value, a raised exception,
    or [OutOfFuel] when the bounded unfolding of a [while] loop ran out. *)
Inductive outcome (A : Type) : Type :=
| Ok (a : A)
| Raise (e : exn)
| OutOfFuel.
Arguments Ok {A} a.
Arguments Raise {A} e.
Arguments OutOfFuel {A}.

Definition bind {A B} (m : outcome A) (k : A -> outcome B) : outcome B :=
  match m with
  | Ok a => k a
  | Raise e => Raise e
  | OutOfFuel => OutOfFuel
  end.

(** [xrange(n)] *)
Definition xrange (n : nat) : list Z := map Z.of_nat (seq 0 n).

(** [for x in xs: s = body(x, s)] *)
Fixpoint for_each {S A} (xs : list A) (body : A -> S -> outcome S) (s : S)
  : outcome S :=
  match xs with
  | [] => Ok s
  | x :: xs' => bind (body x s) (for_each xs' body)
  end.

(** [l[i]] on a Python list: a negative subscript counts from the end,
    anything outside [-len, len) raises [IndexError]. *)
Definition getitem {A} (l : list A) (i : Z) : outcome A :=
  let n := Z.of_nat (length l) in
  let j := if i <? 0 then i + n else i in
  if (0 <=? j) && (j <? n) then
    match l !! Z.to_nat j with
    | Some x => Ok x
    | None => Raise IndexError
    end
  else Raise IndexError.

(** [d[k]] on a dict with integer keys. *)
Definition dict_get {V} (d : gmap Z V) (k : Z) : outcome V :=
  match d !! k with
  | Some v => Ok v
  | None => Raise (KeyError k)
  end.

End Py.

Import Py.

Notation "'let*' x ':=' m 'in' k" := (Py.bind m (fun x => k))
  (at level 10, x name, m at level 100, k at level 200).

(* ================================================================== *)
(** ** The routing engine behind [pywrapcp] *)

Module Routing.

(** Modelled from the spec: a route is the sequence of point indices of one
    vehicle tour; it begins and ends at the depot, index [0]. The unused
    vehicle has the route [[0; 0]]. *)
Abbreviation Route := (list nat).

(** Modelled from the spec: one insertion considered or performed by the
    constructor: point [ins_point] goes into route [ins_route] between the
    positions [ins_position] and [ins_position + 1], at marginal cost
    [ins_cost]. *)
Record Insertion : Type := {
  ins_point : nat;
  ins_route : nat;
  ins_position : nat;
  ins_cost : Z
}.

(** Modelled from the spec: working state of the constructor: the routes
    under construction and the set of unrouted point indices. *)
Record State : Type := {
  routes : list Route;
  unrouted : gset nat
}.

(** Modelled from the spec: what a construction run ends with: the Solution,
    or an error result carrying one of the two engine errors,
    [InvalidInstance] or [ConstructionInfeasible]; [Unfinished] stands for a
    loop cut short by its bound, which [construct] never is. *)
Inductive Verdict : Type :=
| Solution (tours : list Route)
| Failure (error : exn)
| Unfinished.

(** Modelled from the spec: what a construction run leaves behind: the
    insertions it performed, in order, and its verdict. *)
Record Run : Type := {
  insertions : list Insertion;
  result : Verdict
}.

(** Modelled from the spec: what one pass of the construction loop finds:
    nothing left to route, the insertion to perform, or unrouted points none
    of which can be inserted. *)
Inductive Pass : Type :=
| Done
| Insert (c : Insertion)
| Stranded (unrouted : list nat).

(** Modelled from the spec: strict order of selection: lower marginal cost
    first; among equal costs the lower point index, then the lower route
    index, then the lower position. *)
Definition precedes (a b : Insertion) : bool :=
  (ins_cost a <? ins_cost b)
  || ((ins_cost a =? ins_cost b)
      && ((ins_point a <? ins_point b)%nat
          || ((ins_point a =? ins_point b)%nat
              && ((ins_route a <? ins_route b)%nat
                  || ((ins_route a =? ins_route b)%nat
                      && (ins_position a <? ins_position b)%nat))))).

(** Modelled from the spec: keeps the better of the best insertion so far
    and [c]. *)
Definition pick (best : option Insertion) (c : Insertion)
  : option Insertion :=
  match best with
  | None => Some c
  | Some b => if precedes c b then Some c else Some b
  end.

(** Modelled from the spec: the first insertion of a list in the order
    [precedes]. *)
Definition select (cands : list Insertion) : option Insertion :=
  foldl pick None cands.

(** Modelled from the spec: [r] with [p] inserted between positions [i] and
    [i + 1]. *)
Definition insert_at (r : Route) (i p : nat) : Route :=
  take (S i) r ++ p :: drop (S i) r.

(** Modelled from the spec: a tour leaves the depot and comes back to it. *)
Definition tour_shaped (r : Route) : Prop :=
  (2 <= length r)%nat /\ head r = Some 0%nat /\ last r = Some 0%nat.

(** Modelled from the spec: step 3c: the insertion is performed and its
    point leaves the unrouted set. *)
Definition apply_insertion (c : Insertion) (st : State) : State :=
  {| routes :=
       alter (fun r => insert_at r (ins_position c) (ins_point c))
             (ins_route c) (routes st);
     unrouted := unrouted st ∖ {[ins_point c]} |}.

Section Instance.
(** Modelled from the spec: the Problem Instance as the Route
    Constructor sees it (sections 3, 4.1 and 4.2 of the specification).
    The constructor itself, [SolveWithParameters] of the routing
    library, is not among the sources of the script. *)
Variable n : nat.                      (* number of points, depot included *)
Variable fleet : nat.                  (* number of vehicles *)
Variable distance : nat -> nat -> Z.   (* Cost Oracle *)
Variable demand : nat -> N.            (* demand of a point *)
Variable capacity : N.                 (* shared vehicle capacity *)

(** Modelled from the spec: the Capacity Dimension (section 4.2).  The
    load of a route is the running sum of the demands of its points. *)
Definition current_cumulative_load (r : Route) : N :=
  foldr (fun p acc => (demand p + acc)%N) 0%N r.

(** Modelled from the spec: running total from the route start through
    [position] inclusive. *)
Definition cumulative_load_at (r : Route) (position : nat) : N :=
  current_cumulative_load (take (S position) r).

(** Modelled from the spec: the route takes one more point within capacity. *)
Definition can_append (r : Route) (candidate_point : nat) : bool :=
  (current_cumulative_load r + demand candidate_point <=? capacity)%N.

(** Modelled from the spec: the invariant of the dimension, as the
    precondition it checks before a mutation: the cumulative load stays
    within capacity at every position of the route. *)
Definition within_capacity (r : Route) : bool :=
  forallb (fun position => (cumulative_load_at r position <=? capacity)%N)
          (seq 0 (length r)).

(** Modelled from the spec: step 3a of section 4.3.  An insertion is
    feasible when [can_append] holds for the route truncated at the
    insertion point and the dimension permits the mutation, that is,
    the route after the insertion is within capacity at every
    position. *)
Definition feasible (r : Route) (i p : nat) : bool :=
  can_append (take (S i) r) p && within_capacity (insert_at r i p).

(** Modelled from the spec: marginal cost of [p] between positions [i] and
    [i + 1] of [r]. *)
Definition marginal_cost (r : Route) (i p : nat) : Z :=
  distance (nth i r 0%nat) p + distance p (nth (S i) r 0%nat)
  - distance (nth i r 0%nat) (nth (S i) r 0%nat).

(** Modelled from the spec: the feasible insertions of point [p] into route
    [r], the route of vehicle [v]: one for every adjacent position pair. *)
Definition route_candidates (p v : nat) (r : Route) : list Insertion :=
  omap (fun i =>
          if feasible r i p
          then Some {| ins_point := p; ins_route := v; ins_position := i;
                       ins_cost := marginal_cost r i p |}
          else None)
       (seq 0 (length r - 1)).

(** Modelled from the spec: every unrouted point, every route, every
    adjacent position pair. *)
Definition candidates (st : State) : list Insertion :=
  flat_map (fun p =>
              flat_map (fun vr => route_candidates p vr.1 vr.2)
                       (imap pair (routes st)))
           (elements (unrouted st)).

(** Modelled from the spec: one pass of the loop of step 3: done once
    nothing is left to route, otherwise the selected insertion, or the
    unrouted points when no insertion is feasible. *)
Definition next_insertion (st : State) : Pass :=
  match elements (unrouted st) with
  | [] => Done
  | stranded =>
      match select (candidates st) with
      | Some c => Insert c
      | None => Stranded stranded
      end
  end.

(** Modelled from the spec: the loop of step 3, at most [fuel] insertions
    long. *)
Fixpoint construct_loop (fuel : nat) (st : State) : Run :=
  match next_insertion st with
  | Done => {| insertions := []; result := Solution (routes st) |}
  | Insert c =>
      match fuel with
      | O => {| insertions := []; result := Unfinished |}
      | S fuel' =>
          let run := construct_loop fuel' (apply_insertion c st) in
          {| insertions := c :: insertions run; result := result run |}
      end
  | Stranded stranded =>
      {| insertions := [];
         result := Failure (ConstructionInfeasible stranded) |}
  end.

(** Modelled from the spec: the check at construction entry (section 7,
    InvalidInstance): the depot has no demand and no point demands
    more than a vehicle carries. *)
Definition valid_instance : bool :=
  (demand 0%nat =? 0)%N
  && forallb (fun p => (demand p <=? capacity)%N) (seq 0 n).

(** Modelled from the spec: steps 1 and 2: [fleet] empty routes, every non-
    depot point unrouted. *)
Definition initial_state : State :=
  {| routes := replicate fleet [0%nat; 0%nat];
     unrouted := list_to_set (seq 1 (n - 1)) |}.

(** Modelled from the spec: the Route Constructor (section 4.3).  Each
    pass routes one point, so [n - 1] passes are all it can need. *)
Definition construct : Run :=
  if valid_instance then construct_loop (n - 1) initial_state
  else {| insertions := []; result := Failure InvalidInstance |}.

(** *** The construction as the specification words it

    The same algorithm as a relation, with the selection stated
    declaratively: any run that follows the rule is a [Constructs]
    run. *)

(** Modelled from the spec: [c] is one of the insertions step 3a enumerates. *)
Definition admissible (st : State) (c : Insertion) : Prop :=
  ins_point c ∈ unrouted st
  /\ exists r, routes st !! ins_route c = Some r
       /\ (S (ins_position c) < length r)%nat
       /\ feasible r (ins_position c) (ins_point c) = true
       /\ ins_cost c = marginal_cost r (ins_position c) (ins_point c).

(** Modelled from the spec: step 3b: globally minimum marginal cost, ties
    broken by the lowest point index, then route index, then position. *)
Definition chosen (st : State) (c : Insertion) : Prop :=
  admissible st c
  /\ forall c', admissible st c' ->
       ins_cost c <= ins_cost c'
       /\ (ins_cost c = ins_cost c' ->
           (ins_point c < ins_point c')%nat
           \/ (ins_point c = ins_point c'
               /\ ((ins_route c < ins_route c')%nat
                   \/ (ins_route c = ins_route c'
                       /\ (ins_position c <= ins_position c')%nat)))).

(** Modelled from the spec: a run from a state: its insertions and its
    verdict. *)
Inductive Builds : State -> list Insertion -> Verdict -> Prop :=
| Builds_done st :
    unrouted st = ∅ ->
    Builds st [] (Solution (routes st))
| Builds_stuck st :
    unrouted st <> ∅ ->
    (forall c, ~ admissible st c) ->
    Builds st [] (Failure (ConstructionInfeasible (elements (unrouted st))))
| Builds_step st c log res :
    unrouted st <> ∅ ->
    chosen st c ->
    Builds (apply_insertion c st) log res ->
    Builds st (c :: log) res.

(** Modelled from the spec: a run of the Route Constructor on the instance. *)
Definition Constructs (run : Run) : Prop :=
  if valid_instance then Builds initial_state (insertions run) (result run)
  else run = {| insertions := []; result := Failure InvalidInstance |}.

(** Modelled from the spec: what holds of every state of a run: one tour per
    vehicle, each within capacity, the unrouted points are points of the
    instance, and a point other than the depot is on the tours exactly when
    it is no longer unrouted, and then once. *)
Definition consistent (st : State) : Prop :=
  length (routes st) = fleet
  /\ Forall tour_shaped (routes st)
  /\ Forall (fun r => within_capacity r = true) (routes st)
  /\ (forall p, p ∈ unrouted st -> (1 <= p < n)%nat)
  /\ forall p, p <> 0%nat ->
       count_occ Nat.eq_dec (concat (routes st)) p
       = if decide (p ∈ unrouted st) then 0%nat
         else if decide (1 <= p < n)%nat then 1%nat else 0%nat.

(** Modelled from the spec: the states a run passes through. *)
Definition steps_to (st st' : State) : Prop :=
  exists c, next_insertion st = Insert c /\ st' = apply_insertion c st.

(** Modelled from the spec: a state of the run on the instance. *)
Definition reachable (st : State) : Prop :=
  valid_instance = true /\ rtc steps_to initial_state st.

(** Modelled from the spec: sum of the oracle distances over the consecutive
    legs of a route. *)
Fixpoint legs_distance (r : Route) : Z :=
  match r with
  | a :: (b :: _) as rest => distance a b + legs_distance rest
  | _ => 0
  end.

End Instance.

(** *** The interface the script consumes

    Modelled from the spec: section 6 lists what the script needs of the
    engine: a cost-oracle callback, a cumulative-dimension declaration
    (slack bound, upper bound, start-at-zero flag, name), a first-solution
    strategy selector, and an assignment answering the objective value,
    the traversal of each vehicle route (start and end markers, successor
    of an index) and the cumulative value of the dimension at an index.
    An index is a position on the route of a vehicle. *)

Abbreviation Index := (nat * nat)%type.

(** Modelled from the spec: a cumulative dimension as [AddDimension]
    declares it. *)
Record Dimension : Type := {
  dim_evaluator : Z -> Z -> outcome N;
  dim_slack_max : N;
  dim_capacity : N;
  dim_fix_start_cumul_to_zero : bool;
  dim_name : string
}.

(** Modelled from the spec: the [routing] object: what the script
    configures, and the tours the last solve left in it. *)
Record RoutingModel : Type := {
  nodes : nat;
  vehicles : nat;
  depot_node : Z;
  arc_cost_evaluator : Z -> Z -> outcome Z;
  dimension : option Dimension;
  tours : list Route
}.

(** Modelled from the spec: the [assignment] object. *)
Record Assignment : Type := {
  ObjectiveValue : Z;
  NextValue : Index -> Index;            (* Value(routing.NextVar(index)) *)
  CumulValue : string -> Index -> Z      (* Value(dimension.CumulVar(index)) *)
}.

(** Modelled from the spec: the construction strategy the script selects. *)
Inductive FirstSolutionStrategy : Type := PATH_CHEAPEST_ARC.

(** Modelled from the spec: the search parameters the script sets. *)
Record SearchParameters : Type :=
  { first_solution_strategy : FirstSolutionStrategy }.

(** Modelled from the spec:
    [pywrapcp.RoutingModel.DefaultSearchParameters()] *)
Definition DefaultSearchParameters : SearchParameters :=
  {| first_solution_strategy := PATH_CHEAPEST_ARC |}.

(** Modelled from the spec: [pywrapcp.RoutingModel(num_locations,
    num_vehicles, depot)] *)
Definition RoutingModel_new (num_nodes num_vehicles : nat) (depot : Z)
  : RoutingModel :=
  {| nodes := num_nodes; vehicles := num_vehicles; depot_node := depot;
     arc_cost_evaluator := fun _ _ => Ok 0; dimension := None;
     tours := [] |}.

(** Modelled from the spec:
    [routing.SetArcCostEvaluatorOfAllVehicles(evaluator)] *)
Definition SetArcCostEvaluatorOfAllVehicles (routing : RoutingModel)
    (evaluator : Z -> Z -> outcome Z) : RoutingModel :=
  {| nodes := nodes routing; vehicles := vehicles routing;
     depot_node := depot_node routing;
     arc_cost_evaluator := evaluator; dimension := dimension routing;
     tours := tours routing |}.

(** Modelled from the spec: [routing.AddDimension(evaluator, slack_max,
    capacity, fix_start_cumul_to_zero, name)] *)
Definition AddDimension (routing : RoutingModel)
    (evaluator : Z -> Z -> outcome N) (slack_max capacity : N)
    (fix_start_cumul_to_zero : bool) (name : string) : RoutingModel :=
  {| nodes := nodes routing; vehicles := vehicles routing;
     depot_node := depot_node routing;
     arc_cost_evaluator := arc_cost_evaluator routing;
     dimension :=
       Some {| dim_evaluator := evaluator; dim_slack_max := slack_max;
               dim_capacity := capacity;
               dim_fix_start_cumul_to_zero := fix_start_cumul_to_zero;
               dim_name := name |};
     tours := tours routing |}.

(** Modelled from the spec: the value a callback gives for two points; a
    callback that raises counts as 0, which the entry check of
    [SolveWithParameters] rules out for the points of the instance. *)
Definition asked {A} (dflt : A) (evaluator : Z -> Z -> outcome A)
    (i j : nat) : A :=
  match evaluator (Z.of_nat i) (Z.of_nat j) with
  | Ok a => a
  | _ => dflt
  end.

(** Modelled from the spec: the callback answers for every pair of points of
    the instance. *)
Definition answers {A} (evaluator : Z -> Z -> outcome A) (num_nodes : nat)
  : bool :=
  forallb (fun i =>
             forallb (fun j =>
                        match evaluator (Z.of_nat i) (Z.of_nat j) with
                        | Ok _ => true
                        | _ => false
                        end)
                     (seq 0 num_nodes))
          (seq 0 num_nodes).

(** Modelled from the spec: the Cost Oracle of the routing object. *)
Definition cost_oracle (routing : RoutingModel) : nat -> nat -> Z :=
  asked 0 (arc_cost_evaluator routing).

(** Modelled from the spec: the demand of a point is what the dimension
    callback answers for it; the point also stands for the second argument. *)
Definition demand_oracle (routing : RoutingModel) (p : nat) : N :=
  match dimension routing with
  | Some d => asked 0%N (dim_evaluator d) p p
  | None => 0%N
  end.

(** Modelled from the spec: the capacity of the declared dimension. *)
Definition capacity_bound (routing : RoutingModel) : N :=
  match dimension routing with
  | Some d => dim_capacity d
  | None => 0%N
  end.

(** Modelled from the spec: the tour of a vehicle, empty for a vehicle the
    object has no tour for. *)
Definition tour (routing : RoutingModel) (vehicle_id : nat) : Route :=
  nth vehicle_id (tours routing) [].

(** Modelled from the spec: [routing.Start(vehicle_id)] *)
Definition Start (routing : RoutingModel) (vehicle_id : Z) : Index :=
  (Z.to_nat vehicle_id, 0%nat).

(** Modelled from the spec: [routing.IsEnd(index)]: the last position of the
    tour. *)
Definition IsEnd (routing : RoutingModel) (index : Index) : bool :=
  (length (tour routing index.1) <=? S index.2)%nat.

(** Modelled from the spec: [routing.IndexToNode(index)] *)
Definition IndexToNode (routing : RoutingModel) (index : Index) : nat :=
  nth index.2 (tour routing index.1) 0%nat.

(** Modelled from the spec: [routing.GetArcCostForVehicle(from_index,
    to_index, vehicle_id)]: the evaluator registered for all vehicles, asked
    about the two nodes. *)
Definition GetArcCostForVehicle (routing : RoutingModel)
    (from_index to_index : Index) (vehicle_id : Z) : Z :=
  cost_oracle routing (IndexToNode routing from_index)
              (IndexToNode routing to_index).

(** Modelled from the spec: [routing.GetDimensionOrDie(name)]: the name
    stands for the dimension. *)
Definition GetDimensionOrDie (routing : RoutingModel) (name : string)
  : outcome string :=
  match dimension routing with
  | Some d =>
      if String.eqb (dim_name d) name then Ok name
      else Raise (DimensionNotFound name)
  | None => Raise (DimensionNotFound name)
  end.

(** Modelled from the spec: the assignment that reports the tours of
    [routing]. *)
Definition assignment_of (routing : RoutingModel) : Assignment :=
  {| ObjectiveValue :=
       foldr (fun r acc => legs_distance (cost_oracle routing) r + acc) 0
             (tours routing);
     NextValue := fun index => (index.1, S index.2);
     CumulValue := fun _ index =>
       Z.of_N (cumulative_load_at (demand_oracle routing)
                                  (tour routing index.1) index.2) |}.

(** Modelled from the spec: [routing.SolveWithParameters]: the entry
    checks of section 7 (the depot is index 0 and a point of the instance,
    both callbacks answer for every point), then the Route Constructor;
    an error of the constructor is raised as the error of the solve. *)
Definition SolveWithParameters (routing : RoutingModel)
    (search_parameters : SearchParameters)
  : outcome (RoutingModel * Assignment) :=
  if (depot_node routing =? 0)
     && (0 <? nodes routing)%nat
     && answers (arc_cost_evaluator routing) (nodes routing)
     && match dimension routing with
        | Some d => answers (dim_evaluator d) (nodes routing)
        | None => true
        end
  then
    match result (construct (nodes routing) (vehicles routing)
                            (cost_oracle routing) (demand_oracle routing)
                            (capacity_bound routing)) with
    | Solution solution =>
        let solved :=
          {| nodes := nodes routing; vehicles := vehicles routing;
             depot_node := depot_node routing;
             arc_cost_evaluator := arc_cost_evaluator routing;
             dimension := dimension routing;
             tours := solution |} in
        Ok (solved, assignment_of solved)
    | Failure error => Raise error
    | Unfinished => OutOfFuel
    end
  else Raise InvalidInstance.

End Routing.
(* ================================================================== *)
(** ** The script *)

Module Cvrp.

(** [Vehicle = namedtuple('Vehicle', ['capacity'])] *)
Record Vehicle : Type := { capacity : N }.

(** [CityBlock = namedtuple('CityBlock', ['width', 'height'])] *)
Record CityBlock : Type := { width : Z; height : Z }.

(** [class DataProblem].  The script fixes every field; the record lets a
    theorem range over problem instances, and [DataProblem_init] below is
    the instance the script builds. *)
Record DataProblem : Type := {
  locations : list (Z * Z);
  demands : list N;
  vehicle : Vehicle;
  num_vehicles : nat
}.

Definition num_locations (data : DataProblem) : nat :=
  length (locations data).

(** [DataProblem.depot]: always index 0. *)
Definition depot (data : DataProblem) : Z := 0.

Definition block_locations : list (Z * Z) :=
  [(4, 4);
   (2, 0); (8, 0);
   (0, 1); (1, 1);
   (5, 2); (7, 2);
   (3, 3); (6, 3);
   (5, 5); (8, 5);
   (1, 6); (2, 6);
   (3, 7); (6, 7);
   (0, 8); (7, 8)].

Definition city_block : CityBlock := {| width := 228 / 2; height := 80 |}.

(** [DataProblem.__init__] together with the constant properties
    [vehicle] (capacity 15) and [num_vehicles] (4). *)
Definition DataProblem_init : DataProblem := {|
  locations :=
    map (fun loc => (loc.1 * width city_block, loc.2 * height city_block))
        block_locations;
  demands :=
    [0; 1; 1; 2; 4; 2; 4; 8; 8; 1; 2; 1; 2; 4; 4; 8; 8]%N;
  vehicle := {| capacity := 15 |};
  num_vehicles := 4
|}.

(** [manhattan_distance(position_1, position_2)] *)
Definition manhattan_distance (position_1 position_2 : Z * Z) : Z :=
  Z.abs (position_1.1 - position_2.1) + Z.abs (position_1.2 - position_2.2).

(** *** [CreateDistanceEvaluator] *)

Record CreateDistanceEvaluator : Type :=
  { _distances : gmap Z (gmap Z Z) }.

Section Metric.
(** The metric the matrix is filled with; the script uses
    [manhattan_distance]. *)
Variable metric : Z * Z -> Z * Z -> Z.

(** The value stored at [[from_node][to_node]]: the metric is not
    consulted on the diagonal. *)
Definition matrix_entry (data : DataProblem) (from_node to_node : Z)
  : outcome Z :=
  if from_node =? to_node then Ok 0
  else
    let* p1 := getitem (locations data) from_node in
    let* p2 := getitem (locations data) to_node in
    Ok (metric p1 p2).

(** [self._distances[from_node][to_node] = v] *)
Definition set_entry (d : gmap Z (gmap Z Z)) (from_node to_node v : Z)
  : outcome (gmap Z (gmap Z Z)) :=
  let* row := dict_get d from_node in
  Ok (<[from_node := <[to_node := v]> row]> d).

(** The two nested loops of [__init__]. *)
Definition fill_row (data : DataProblem) (from_node : Z)
    (d : gmap Z (gmap Z Z)) : outcome (gmap Z (gmap Z Z)) :=
  for_each (xrange (num_locations data))
    (fun to_node d' =>
       let* v := matrix_entry data from_node to_node in
       set_entry d' from_node to_node v)
    (<[from_node := ∅]> d).

Definition init_with_metric (data : DataProblem)
  : outcome CreateDistanceEvaluator :=
  let* d := for_each (xrange (num_locations data)) (fill_row data) ∅ in
  Ok {| _distances := d |}.
End Metric.

(** [CreateDistanceEvaluator.__init__(data)] *)
Definition CreateDistanceEvaluator_init (data : DataProblem)
  : outcome CreateDistanceEvaluator :=
  init_with_metric manhattan_distance data.

(** [CreateDistanceEvaluator.distance_evaluator(from_node, to_node)] *)
Definition distance_evaluator (self : CreateDistanceEvaluator)
    (from_node to_node : Z) : outcome Z :=
  let* row := dict_get (_distances self) from_node in
  dict_get row to_node.

(** *** [CreateDemandEvaluator] *)

Record CreateDemandEvaluator : Type := { _demands : list N }.

(** [CreateDemandEvaluator.__init__(data)] *)
Definition CreateDemandEvaluator_init (data : DataProblem)
  : CreateDemandEvaluator :=
  {| _demands := demands data |}.

(** [demand_evaluator(from_node, to_node)]: [to_node] is deleted on
    entry and never read. *)
Definition demand_evaluator (self : CreateDemandEvaluator)
    (from_node to_node : Z) : outcome N :=
  getitem (_demands self) from_node.

(** [add_capacity_constraints(routing, data, demand_evaluator)]: null
    capacity slack, the vehicle capacity, start cumul to zero. *)
Definition add_capacity_constraints (routing : Routing.RoutingModel)
    (data : DataProblem) (demand_evaluator : Z -> Z -> outcome N)
  : Routing.RoutingModel :=
  let capacity_name := "Capacity"%string in
  Routing.AddDimension routing demand_evaluator 0%N
                       (capacity (vehicle data)) true capacity_name.

(** *** Printer *)

(** What [print_solution] prints.  [Objective v] is the line
    ['Objective: v']; [RoutePlan] is one [plan_output]: the header of the
    vehicle, a [' node Load(load) -> '] for every stop before the end,
    the closing [' node Load(load)'], the distance and the load of the
    route; the last two lines are the totals. *)
Inductive Line : Type :=
| Objective (value : Z)
| RoutePlan (vehicle_id : Z) (stops : list (nat * Z)) (last_stop : nat * Z)
            (distance load : Z)
| TotalDistance (meters : Z)
| TotalLoad (load : Z).

(** The distance printed for a [RoutePlan]. *)
Definition plan_distance (line : Line) : Z :=
  match line with
  | RoutePlan _ _ _ distance _ => distance
  | _ => 0
  end.

(** The load printed at the last stop of a [RoutePlan]. *)
Definition plan_final_load (line : Line) : Z :=
  match line with
  | RoutePlan _ _ last_stop _ _ => last_stop.2
  | _ => 0
  end.

(** Sum of a list of integers. *)
Definition sum_Z (values : list Z) : Z := foldr Z.add 0 values.

(** The [while not routing.IsEnd(index)] loop over one route; the state
    is [(index, plan_output, distance)]. *)
Fixpoint follow_route (fuel : nat) (routing : Routing.RoutingModel)
    (assignment : Routing.Assignment) (capacity_dimension : string)
    (vehicle_id : Z) (index : Routing.Index) (plan_output : list (nat * Z))
    (distance : Z) : outcome (Routing.Index * list (nat * Z) * Z) :=
  if Routing.IsEnd routing index then Ok (index, plan_output, distance)
  else
    match fuel with
    | O => OutOfFuel
    | S fuel' =>
        let load := Routing.CumulValue assignment capacity_dimension index in
        let plan_output :=
          plan_output ++ [(Routing.IndexToNode routing index, load)] in
        let previous_index := index in
        let index := Routing.NextValue assignment index in
        let distance :=
          distance + Routing.GetArcCostForVehicle routing previous_index
                                                  index vehicle_id in
        follow_route fuel' routing assignment capacity_dimension vehicle_id
                     index plan_output distance
    end.

(** The body of the [for vehicle_id] loop; the state is the text printed
    so far with [total_distance] and [total_load]. *)
Definition report_route (fuel : nat) (routing : Routing.RoutingModel)
    (assignment : Routing.Assignment) (capacity_dimension : string)
    (vehicle_id : Z) (acc : list Line * Z * Z) : outcome (list Line * Z * Z) :=
  let '(printed, total_distance, total_load) := acc in
  let index := Routing.Start routing vehicle_id in
  let* walked :=
    follow_route fuel routing assignment capacity_dimension vehicle_id
                 index [] 0 in
  let '(index, plan_output, distance) := walked in
  let load := Routing.CumulValue assignment capacity_dimension index in
  Ok (printed ++ [RoutePlan vehicle_id plan_output
                            (Routing.IndexToNode routing index, load)
                            distance load],
      total_distance + distance,
      total_load + load).

(** What the body of the [for] loop prints for a vehicle: the plan of
    the walk from [routing.Start(vehicle_id)] to the end index, with the
    load read at that index. *)
Definition route_reported (fuel : nat) (routing : Routing.RoutingModel)
    (assignment : Routing.Assignment) (capacity_dimension : string)
    (vehicle_id : Z) (plan : Line) : Prop :=
  exists index stops distance,
    follow_route fuel routing assignment capacity_dimension vehicle_id
                 (Routing.Start routing vehicle_id) [] 0
    = Ok (index, stops, distance)
    /\ Routing.IsEnd routing index = true
    /\ plan = RoutePlan vehicle_id stops
                        (Routing.IndexToNode routing index,
                         Routing.CumulValue assignment capacity_dimension
                                            index)
                        distance
                        (Routing.CumulValue assignment capacity_dimension
                                            index).

(** [print_solution(data, routing, assignment)]; [fuel] bounds the
    length of the walk along one route.  The result is the text printed by
    a call that returns; a call that dies in [GetDimensionOrDie] has
    printed the objective line before, which the result does not keep. *)
Definition print_solution (fuel : nat) (data : DataProblem)
    (routing : Routing.RoutingModel) (assignment : Routing.Assignment)
  : outcome (list Line) :=
  let printed := [Objective (Routing.ObjectiveValue assignment)] in
  let total_distance := 0 in
  let total_load := 0 in
  let* capacity_dimension := Routing.GetDimensionOrDie routing "Capacity" in
  let* acc :=
    for_each (xrange (num_vehicles data))
             (report_route fuel routing assignment capacity_dimension)
             (printed, total_distance, total_load) in
  let '(printed, total_distance, total_load) := acc in
  Ok (printed ++ [TotalDistance total_distance; TotalLoad total_load]).

(** *** Main *)

(** [main()], for the problem [data]; the script runs it on
    [DataProblem()]. *)
Definition main (fuel : nat) (data : DataProblem) : outcome (list Line) :=
  let routing :=
    Routing.RoutingModel_new (num_locations data) (num_vehicles data)
                             (depot data) in
  let* distances := CreateDistanceEvaluator_init data in
  let routing :=
    Routing.SetArcCostEvaluatorOfAllVehicles
      routing (distance_evaluator distances) in
  let demand_callback := demand_evaluator (CreateDemandEvaluator_init data) in
  let routing := add_capacity_constraints routing data demand_callback in
  let search_parameters := Routing.DefaultSearchParameters in
  let search_parameters :=
    {| Routing.first_solution_strategy := Routing.PATH_CHEAPEST_ARC |} in
  let* solved := Routing.SolveWithParameters routing search_parameters in
  let '(routing, assignment) := solved in
  print_solution fuel data routing assignment.

End Cvrp.

(* ================================================================== *)
(** ** Reference values and sample instances *)

Module Samples.
Import Cvrp.

(** What [_distances[i][j]] holds for two points of the instance, read
    off the coordinates. *)
Definition stored (metric : Z * Z -> Z * Z -> Z) (data : DataProblem)
    (i j : Z) : Z :=
  if i =? j then 0
  else metric (nth (Z.to_nat i) (locations data) (0, 0))
              (nth (Z.to_nat j) (locations data) (0, 0)).

(** Depot at the origin, two customers on a line, one vehicle short. *)
Definition three_points : DataProblem := {|
  locations := [(0, 0); (1, 0); (3, 0)];
  demands := [0; 1; 1]%N;
  vehicle := {| capacity := 2 |};
  num_vehicles := 2
|}.

(** Points on a line, at their index. *)
Definition line_distance (i j : nat) : Z :=
  Z.abs (Z.of_nat i - Z.of_nat j).

(** Every customer asks for one unit. *)
Definition unit_demand (p : nat) : N :=
  match p with
  | O => 0%N
  | S _ => 1%N
  end.

(** Customer 1 fills a vehicle of capacity 2 alone. *)
Definition heavy_demand (p : nat) : N :=
  match p with
  | 1%nat => 2%N
  | 2%nat => 1%N
  | _ => 0%N
  end.

(** Customer 1 asks for more than a vehicle of capacity 5 carries. *)
Definition oversized_demand (p : nat) : N :=
  match p with
  | 1%nat => 10%N
  | _ => 0%N
  end.

(** The state of the run on [heavy_demand], one vehicle of capacity 2,
    after customer 1 went on its tour. *)
Definition stuck_state : Routing.State :=
  Routing.apply_insertion
    {| Routing.ins_point := 1; Routing.ins_route := 0;
       Routing.ins_position := 0; Routing.ins_cost := 2 |}
    (Routing.initial_state 3 1).

(** A solved routing object: three points on a line, the first vehicle
    visits both customers, the second stays at the depot. *)
Definition line_routing : Routing.RoutingModel := {|
  Routing.nodes := 3;
  Routing.vehicles := 2;
  Routing.depot_node := 0;
  Routing.arc_cost_evaluator := fun i j => Ok (Z.abs (i - j));
  Routing.dimension :=
    Some {| Routing.dim_evaluator :=
              fun i _ => Ok (if i =? 0 then 0%N else 1%N);
            Routing.dim_slack_max := 0;
            Routing.dim_capacity := 2;
            Routing.dim_fix_start_cumul_to_zero := true;
            Routing.dim_name := "Capacity" |};
  Routing.tours := [[0; 2; 1; 0]; [0; 0]]%nat
|}.

(** What [print_solution] prints for it. *)
Definition line_printed : list Line :=
  [Objective 4;
   RoutePlan 0 [(0%nat, 0); (2%nat, 1); (1%nat, 2)] (0%nat, 2) 4 2;
   RoutePlan 1 [(0%nat, 0)] (0%nat, 0) 0 0;
   TotalDistance 4;
   TotalLoad 2].

End Samples.

(* ================================================================== *)
(** ** Traversals of an assignment *)

Module Traversal.
Import Cvrp.

(** The first [k] indices on the way from [index] along the successors
    the assignment gives: [index], its successor, and so on. *)
Fixpoint successors (assignment : Routing.Assignment) (k : nat)
    (index : Routing.Index) : list Routing.Index :=
  match k with
  | O => []
  | S k' =>
      index :: successors assignment k' (Routing.NextValue assignment index)
  end.

(** An assignment whose successor sends every index back to the start of
    its tour: the walk of a vehicle never comes to an end index. *)
Definition looping_assignment : Routing.Assignment := {|
  Routing.ObjectiveValue := 0;
  Routing.NextValue := fun index => (index.1, 0%nat);
  Routing.CumulValue := fun _ _ => 0
|}.

(** The distance matrix of [three_points], and the solved routing object
    of [line_routing] with the distance callback of that matrix as its
    arc cost evaluator, as [main] registers it. *)
Definition three_points_oracle : CreateDistanceEvaluator :=
  match CreateDistanceEvaluator_init Samples.three_points with
  | Ok oracle => oracle
  | _ => {| _distances := ∅ |}
  end.

Definition three_points_routing : Routing.RoutingModel :=
  Routing.SetArcCostEvaluatorOfAllVehicles
    Samples.line_routing (distance_evaluator three_points_oracle).

End Traversal.

(* ================================================================== *)
(** ** Facts about the Python fragments *)

Section PyFacts.

Lemma elem_of_xrange (n : nat) (k : Z) :
  k ∈ xrange n <-> 0 <= k < Z.of_nat n.
Proof.
  unfold xrange. rewrite list_elem_of_fmap. split.
  - intros (i & -> & Hi). apply elem_of_seq in Hi. lia.
  - intros Hk. exists (Z.to_nat k). split; [lia|].
    apply elem_of_seq. lia.
Qed.

Lemma getitem_in_range {A} (l : list A) (i : Z) :
  0 <= i < Z.of_nat (length l) ->
  exists x, l !! Z.to_nat i = Some x /\ getitem l i = Ok x.
Proof.
  intros Hi. unfold getitem.
  destruct (Z.ltb_spec i 0) as [?|_]; [lia|].
  destruct (Z.leb_spec 0 i) as [_|?]; [|lia].
  destruct (Z.ltb_spec i (Z.of_nat (length l))) as [_|?]; [|lia].
  simpl. destruct (lookup_lt_is_Some_2 l (Z.to_nat i)) as [x Hx]; [lia|].
  exists x. by rewrite Hx.
Qed.

Lemma getitem_nth {A} (l : list A) (i : Z) (dflt : A) :
  0 <= i < Z.of_nat (length l) ->
  getitem l i = Ok (nth (Z.to_nat i) l dflt).
Proof.
  intros Hi. destruct (getitem_in_range l i Hi) as (x & Hx & ->).
  f_equal. symmetry. by apply nth_lookup_Some.
Qed.

(** A loop that stores [f k] under every key [k] it runs over. *)
Lemma lookup_foldl_insert {V} (f : Z -> V) (ks : list Z) (row : gmap Z V)
    (k : Z) :
  foldl (fun r k' => <[k' := f k']> r) row ks !! k
  = if decide (k ∈ ks) then Some (f k) else row !! k.
Proof.
  revert row. induction ks as [|k0 ks IH]; intros row; simpl.
  - destruct (decide (k ∈ [])) as [H%elem_of_nil|]; done.
  - rewrite IH. destruct (decide (k ∈ ks)) as [Hin|Hout].
    + rewrite decide_True; [done|by right].
    + destruct (decide (k = k0)) as [->|Hne].
      * rewrite lookup_insert_eq. rewrite decide_True; [done|by left].
      * rewrite lookup_insert_ne by done.
        rewrite decide_False; [done|].
        intros [?|?]%elem_of_cons; done.
Qed.

End PyFacts.

(* ================================================================== *)
(** ** The distance and demand evaluators *)

Section Evaluators.
Import Cvrp Samples.

Variable metric : Z * Z -> Z * Z -> Z.
Variable data : DataProblem.

Lemma matrix_entry_stored (i j : Z) :
  0 <= i < Z.of_nat (num_locations data) ->
  0 <= j < Z.of_nat (num_locations data) ->
  matrix_entry metric data i j = Ok (stored metric data i j).
Proof.
  intros Hi Hj. unfold matrix_entry, stored.
  destruct (i =? j); [done|].
  rewrite (getitem_nth _ i (0, 0)) by done.
  rewrite (getitem_nth _ j (0, 0)) by done. done.
Qed.

(** The inner loop fills the row of [from_node] and leaves the other
    rows alone. *)
Lemma inner_loop_fills (from_node : Z) (tos : list Z) :
  0 <= from_node < Z.of_nat (num_locations data) ->
  (forall t, t ∈ tos -> 0 <= t < Z.of_nat (num_locations data)) ->
  forall (d : gmap Z (gmap Z Z)) (row : gmap Z Z),
    d !! from_node = Some row ->
    for_each tos
      (fun to_node d' =>
         let* v := matrix_entry metric data from_node to_node in
         set_entry d' from_node to_node v) d
    = Ok (<[from_node :=
              foldl (fun r t => <[t := stored metric data from_node t]> r)
                    row tos]> d).
Proof.
  intros Hfrom. induction tos as [|t tos IH]; intros Htos d row Hrow; simpl.
  - by rewrite insert_id.
  - rewrite matrix_entry_stored; [|done|apply Htos; by left]. simpl.
    unfold set_entry, dict_get. rewrite Hrow. simpl.
    rewrite (IH (fun t' Ht' => Htos t' (list_elem_of_further _ _ _ Ht'))
                _ (<[t := stored metric data from_node t]> row))
      by apply lookup_insert_eq.
    by rewrite insert_insert_eq.
Qed.

Lemma fill_row_fills (from_node : Z) (d : gmap Z (gmap Z Z)) :
  0 <= from_node < Z.of_nat (num_locations data) ->
  fill_row metric data from_node d
  = Ok (<[from_node :=
            foldl (fun r t => <[t := stored metric data from_node t]> r)
                  ∅ (xrange (num_locations data))]> d).
Proof.
  intros Hfrom. unfold fill_row.
  pose proof (inner_loop_fills from_node (xrange (num_locations data))
                Hfrom (fun t => proj1 (elem_of_xrange _ t))) as Hloop.
  rewrite (Hloop (<[from_node := ∅]> d) ∅) by apply lookup_insert_eq.
  by rewrite insert_insert_eq.
Qed.

Lemma outer_loop_fills (froms : list Z) :
  (forall f, f ∈ froms -> 0 <= f < Z.of_nat (num_locations data)) ->
  forall d : gmap Z (gmap Z Z),
    for_each froms (fill_row metric data) d
    = Ok (foldl
            (fun d' f =>
               <[f := foldl
                        (fun r t => <[t := stored metric data f t]> r)
                        ∅ (xrange (num_locations data))]> d')
            d froms).
Proof.
  induction froms as [|f froms IH]; intros Hfroms d; simpl; [done|].
  rewrite fill_row_fills by (apply Hfroms; by left). simpl.
  apply IH. intros f' Hf'. apply Hfroms. by right.
Qed.

(** [__init__] never raises, and the matrix answers every pair of points
    of the instance with the stored value. *)
Lemma init_with_metric_lookup :
  exists oracle,
    init_with_metric metric data = Ok oracle
    /\ forall i j,
         0 <= i < Z.of_nat (num_locations data) ->
         0 <= j < Z.of_nat (num_locations data) ->
         distance_evaluator oracle i j = Ok (stored metric data i j).
Proof.
  unfold init_with_metric.
  rewrite outer_loop_fills by (intros f; apply elem_of_xrange).
  simpl. eexists. split; [reflexivity|].
  intros i j Hi Hj. unfold distance_evaluator, dict_get. simpl.
  rewrite (lookup_foldl_insert
             (fun f => foldl (fun r t => <[t := stored metric data f t]> r)
                             ∅ (xrange (num_locations data)))).
  rewrite decide_True by (by apply elem_of_xrange). simpl.
  rewrite (lookup_foldl_insert (stored metric data i)).
  rewrite decide_True by (by apply elem_of_xrange). done.
Qed.

End Evaluators.

Section EvaluatorClaims.
Import Cvrp Samples.

Lemma manhattan_distance_sym (p q : Z * Z) :
  manhattan_distance p q = manhattan_distance q p.
Proof. unfold manhattan_distance. lia. Qed.

Lemma manhattan_distance_diag (p : Z * Z) : manhattan_distance p p = 0.
Proof. unfold manhattan_distance. lia. Qed.

Lemma stored_manhattan (data : DataProblem) (i j : Z) :
  stored manhattan_distance data i j
  = manhattan_distance (nth (Z.to_nat i) (locations data) (0, 0))
                       (nth (Z.to_nat j) (locations data) (0, 0)).
Proof.
  unfold stored. destruct (Z.eqb_spec i j) as [->|_]; [|done].
  by rewrite manhattan_distance_diag.
Qed.

(** C3: for all indices i, j in [0, N), the cached value distance(i, j)
    of the Cost Oracle is the Manhattan distance |x_i - x_j| + |y_i - y_j|
    recomputed from the coordinates of the Problem Instance, and
    distance(i, i) is 0 whatever metric the matrix is filled with. *)
Theorem distance_oracle_recomputed (data : DataProblem) (i j : Z) :
  0 <= i < Z.of_nat (num_locations data) ->
  0 <= j < Z.of_nat (num_locations data) ->
  exists oracle p_i p_j,
    CreateDistanceEvaluator_init data = Ok oracle
    /\ locations data !! Z.to_nat i = Some p_i
    /\ locations data !! Z.to_nat j = Some p_j
    /\ distance_evaluator oracle i j
       = Ok (Z.abs (p_i.1 - p_j.1) + Z.abs (p_i.2 - p_j.2))
    /\ forall metric,
         exists oracle',
           init_with_metric metric data = Ok oracle'
           /\ distance_evaluator oracle' i i = Ok 0.
Proof.
  intros Hi Hj.
  destruct (init_with_metric_lookup manhattan_distance data)
    as (oracle & Hinit & Hlook).
  destruct (lookup_lt_is_Some_2 (locations data) (Z.to_nat i)) as [p_i Hpi];
    [unfold num_locations in Hi; lia|].
  destruct (lookup_lt_is_Some_2 (locations data) (Z.to_nat j)) as [p_j Hpj];
    [unfold num_locations in Hj; lia|].
  exists oracle, p_i, p_j. repeat split; try done.
  - rewrite (Hlook i j Hi Hj), stored_manhattan.
    by rewrite (nth_lookup_Some _ _ _ _ Hpi), (nth_lookup_Some _ _ _ _ Hpj).
  - intros metric.
    destruct (init_with_metric_lookup metric data)
      as (oracle' & Hinit' & Hlook').
    exists oracle'. split; [done|].
    rewrite (Hlook' i i Hi Hi). unfold stored. by rewrite Z.eqb_refl.
Qed.

Lemma distance_oracle_recomputed_witness :
  (0 <= 3 < Z.of_nat (num_locations DataProblem_init))
  /\ (0 <= 7 < Z.of_nat (num_locations DataProblem_init))
  /\ exists oracle p_i p_j,
       CreateDistanceEvaluator_init DataProblem_init = Ok oracle
       /\ locations DataProblem_init !! Z.to_nat 3 = Some p_i
       /\ locations DataProblem_init !! Z.to_nat 7 = Some p_j
       /\ distance_evaluator oracle 3 7
          = Ok (Z.abs (p_i.1 - p_j.1) + Z.abs (p_i.2 - p_j.2))
       /\ forall metric,
            exists oracle',
              init_with_metric metric DataProblem_init = Ok oracle'
              /\ distance_evaluator oracle' 3 3 = Ok 0.
Proof.
  split; [vm_compute; split; [discriminate|reflexivity]|].
  split; [vm_compute; split; [discriminate|reflexivity]|].
  apply (distance_oracle_recomputed DataProblem_init 3 7);
    vm_compute; split; (discriminate || reflexivity).
Defined.

(** C9: for all indices i, j in [0, N), the Cost Oracle built from the
    Manhattan metric of the script gives distance(i, j) = distance(j, i). *)
Theorem distance_oracle_symmetric (data : DataProblem) (i j : Z) :
  0 <= i < Z.of_nat (num_locations data) ->
  0 <= j < Z.of_nat (num_locations data) ->
  exists oracle d,
    CreateDistanceEvaluator_init data = Ok oracle
    /\ distance_evaluator oracle i j = Ok d
    /\ distance_evaluator oracle j i = Ok d.
Proof.
  intros Hi Hj.
  destruct (init_with_metric_lookup manhattan_distance data)
    as (oracle & Hinit & Hlook).
  exists oracle, (stored manhattan_distance data i j).
  split; [done|]. split; [by apply Hlook|].
  rewrite (Hlook j i Hj Hi), !stored_manhattan.
  by rewrite manhattan_distance_sym.
Qed.

Lemma distance_oracle_symmetric_witness :
  (0 <= 2 < Z.of_nat (num_locations DataProblem_init))
  /\ (0 <= 15 < Z.of_nat (num_locations DataProblem_init))
  /\ exists oracle d,
       CreateDistanceEvaluator_init DataProblem_init = Ok oracle
       /\ distance_evaluator oracle 2 15 = Ok d
       /\ distance_evaluator oracle 15 2 = Ok d.
Proof.
  split; [vm_compute; split; [discriminate|reflexivity]|].
  split; [vm_compute; split; [discriminate|reflexivity]|].
  apply (distance_oracle_symmetric DataProblem_init 2 15);
    vm_compute; split; (discriminate || reflexivity).
Defined.

(** C10: the demand evaluator does not depend on its second argument:
    for from_node in [0, N) and any two values a, b of to_node it returns
    demands[from_node] both times; in the instance of the script the
    depot (index 0) has demand 0 and every demand is at most the
    capacity 15. *)
Theorem demand_evaluator_ignores_to_node (data : DataProblem)
    (from_node a b : Z) :
  0 <= from_node < Z.of_nat (length (demands data)) ->
  (exists d,
     demands data !! Z.to_nat from_node = Some d
     /\ demand_evaluator (CreateDemandEvaluator_init data) from_node a = Ok d
     /\ demand_evaluator (CreateDemandEvaluator_init data) from_node b = Ok d)
  /\ length (demands DataProblem_init) = num_locations DataProblem_init
  /\ demand_evaluator (CreateDemandEvaluator_init DataProblem_init) 0 a
     = Ok 0%N
  /\ capacity (vehicle DataProblem_init) = 15%N
  /\ Forall (fun d => (d <= 15)%N) (demands DataProblem_init).
Proof.
  intros Hfrom. split.
  - destruct (getitem_in_range (demands data) from_node Hfrom)
      as (d & Hd & Hget).
    exists d. unfold demand_evaluator. simpl. by rewrite Hget.
  - repeat split. repeat constructor; by vm_compute.
Qed.

Lemma demand_evaluator_ignores_to_node_witness :
  (0 <= 7 < Z.of_nat (length (demands DataProblem_init)))
  /\ (exists d,
        demands DataProblem_init !! Z.to_nat 7 = Some d
        /\ demand_evaluator (CreateDemandEvaluator_init DataProblem_init)
                            7 3 = Ok d
        /\ demand_evaluator (CreateDemandEvaluator_init DataProblem_init)
                            7 (-20) = Ok d).
Proof.
  split; [vm_compute; split; [discriminate|reflexivity]|].
  apply (demand_evaluator_ignores_to_node DataProblem_init 7 3 (-20)).
  vm_compute; split; [discriminate|reflexivity].
Defined.

End EvaluatorClaims.

(* ================================================================== *)
(** ** The selection rule *)

Section Selection.
Import Routing.

Lemma precedes_spec (a b : Insertion) :
  precedes a b = true <->
  ins_cost a < ins_cost b
  \/ (ins_cost a = ins_cost b
      /\ ((ins_point a < ins_point b)%nat
          \/ (ins_point a = ins_point b
              /\ ((ins_route a < ins_route b)%nat
                  \/ (ins_route a = ins_route b
                      /\ (ins_position a < ins_position b)%nat))))).
Proof.
  unfold precedes.
  repeat (rewrite orb_true_iff || rewrite andb_true_iff).
  rewrite Z.ltb_lt, Z.eqb_eq, !Nat.ltb_lt, !Nat.eqb_eq.
  tauto.
Qed.

Lemma precedes_false (a b : Insertion) :
  precedes a b = false <->
  ins_cost b <= ins_cost a
  /\ (ins_cost b = ins_cost a ->
      (ins_point b < ins_point a)%nat
      \/ (ins_point b = ins_point a
          /\ ((ins_route b < ins_route a)%nat
              \/ (ins_route b = ins_route a
                  /\ (ins_position b <= ins_position a)%nat)))).
Proof.
  rewrite <- not_true_iff_false, precedes_spec. lia.
Qed.

Lemma precedes_irrefl (a : Insertion) : precedes a a = false.
Proof. apply precedes_false. lia. Qed.

Lemma not_precedes_trans (a b c : Insertion) :
  precedes b a = false -> precedes c b = false -> precedes c a = false.
Proof. rewrite !precedes_false. lia. Qed.

Lemma precedes_not_precedes (a b c : Insertion) :
  precedes b a = true -> precedes c a = false -> precedes c b = false.
Proof. rewrite precedes_spec, !precedes_false. lia. Qed.

(** The loop of [select] keeps the first insertion in the order. *)
Lemma foldl_pick_some (cands : list Insertion) (b : Insertion) :
  exists c,
    foldl pick (Some b) cands = Some c
    /\ (c = b \/ c ∈ cands)
    /\ precedes b c = false
    /\ forall c', c' ∈ cands -> precedes c' c = false.
Proof.
  revert b. induction cands as [|x cands IH]; intros b; simpl.
  - exists b. split; [done|]. split; [by left|].
    split; [apply precedes_irrefl|]. intros c' H. by apply elem_of_nil in H.
  - destruct (precedes x b) eqn:Hxb.
    + destruct (IH x) as (c & Hc & Hin & Hx & Hall).
      exists c. split; [done|]. split.
      { right. destruct Hin as [->|Hin]; [by left|by right]. }
      split.
      { apply precedes_false. apply precedes_spec in Hxb.
        apply precedes_false in Hx. lia. }
      intros c' [->|Hc']%elem_of_cons; [done|by apply Hall].
    + destruct (IH b) as (c & Hc & Hin & Hb & Hall).
      exists c. split; [done|]. split.
      { destruct Hin as [->|Hin]; [by left|right; by right]. }
      split; [done|].
      intros c' [->|Hc']%elem_of_cons; [|by apply Hall].
      by apply (not_precedes_trans _ b).
Qed.

Lemma select_some (cands : list Insertion) (c : Insertion) :
  select cands = Some c ->
  c ∈ cands /\ forall c', c' ∈ cands -> precedes c' c = false.
Proof.
  unfold select. destruct cands as [|b cands]; simpl; [done|].
  destruct (foldl_pick_some cands b) as (c0 & Hc0 & Hin & Hb & Hall).
  rewrite Hc0. intros [= <-]. split.
  - destruct Hin as [->|Hin]; [by left|by right].
  - intros c' [->|Hc']%elem_of_cons; [done|by apply Hall].
Qed.

Lemma select_none (cands : list Insertion) :
  select cands = None <-> cands = [].
Proof.
  split; [|by intros ->].
  unfold select. destruct cands as [|b cands]; simpl; [done|].
  destruct (foldl_pick_some cands b) as (c0 & Hc0 & _). by rewrite Hc0.
Qed.

End Selection.

(* ================================================================== *)
(** ** Candidates and the construction relation *)

Section Construction.
Import Routing.

Variable n : nat.
Variable fleet : nat.
Variable distance : nat -> nat -> Z.
Variable demand : nat -> N.
Variable capacity : N.

Local Abbreviation feasible := (feasible demand capacity).
Local Abbreviation marginal_cost := (marginal_cost distance).
Local Abbreviation candidates := (candidates distance demand capacity).
Local Abbreviation admissible := (admissible distance demand capacity).
Local Abbreviation chosen := (chosen distance demand capacity).
Local Abbreviation next_insertion := (next_insertion distance demand capacity).
Local Abbreviation construct_loop := (construct_loop distance demand capacity).
Local Abbreviation Builds := (Builds distance demand capacity).

Lemma elem_of_route_candidates (p v : nat) (r : Route) (c : Insertion) :
  c ∈ route_candidates distance demand capacity p v r <->
  ins_point c = p /\ ins_route c = v
  /\ (S (ins_position c) < length r)%nat
  /\ feasible r (ins_position c) p = true
  /\ ins_cost c = marginal_cost r (ins_position c) p.
Proof.
  unfold route_candidates. rewrite list_elem_of_omap. split.
  - intros (i & Hi & Hc). apply elem_of_seq in Hi.
    destruct (feasible r i p) eqn:Hf; [|done].
    injection Hc as <-. simpl. repeat split; try done. lia.
  - intros (Hp & Hv & Hlen & Hf & Hcost).
    exists (ins_position c). split; [apply elem_of_seq; lia|].
    rewrite Hf. f_equal. destruct c; simpl in *. congruence.
Qed.

Lemma elem_of_candidates (st : State) (c : Insertion) :
  c ∈ candidates st <-> admissible st c.
Proof.
  unfold Routing.candidates, Routing.admissible.
  rewrite list_elem_of_In, in_flat_map. split.
  - intros (p & Hp & Hc). apply in_flat_map in Hc as ([v r] & Hvr & Hc).
    apply list_elem_of_In, elem_of_elements in Hp.
    apply list_elem_of_In, elem_of_lookup_imap in Hvr
      as (v' & r' & Heq & Hr).
    injection Heq as <- <-. simpl in Hc.
    apply list_elem_of_In, elem_of_route_candidates in Hc
      as (<- & <- & Hlen & Hf & Hcost).
    split; [done|]. by exists r.
  - intros (Hp & r & Hr & Hlen & Hf & Hcost).
    exists (ins_point c). split; [by apply list_elem_of_In, elem_of_elements|].
    apply in_flat_map. exists (ins_route c, r). split.
    + apply list_elem_of_In, elem_of_lookup_imap. by exists (ins_route c), r.
    + by apply list_elem_of_In, elem_of_route_candidates.
Qed.

Lemma select_chosen (st : State) (c : Insertion) :
  select (candidates st) = Some c -> chosen st c.
Proof.
  intros [Hin Hmin]%select_some. split; [by apply elem_of_candidates|].
  intros c' Hc'%elem_of_candidates.
  apply Hmin, precedes_false in Hc'. lia.
Qed.

Lemma select_none_admissible (st : State) :
  select (candidates st) = None -> forall c, ~ admissible st c.
Proof.
  intros Hnone%select_none c Hc%elem_of_candidates.
  rewrite Hnone in Hc. by apply elem_of_nil in Hc.
Qed.

Lemma no_candidates_infeasible (st : State) :
  candidates st = [] ->
  forall p v r i,
    p ∈ unrouted st -> routes st !! v = Some r -> (S i < length r)%nat ->
    feasible r i p = false.
Proof.
  intros Hnone p v r i Hp Hr Hi.
  destruct (feasible r i p) eqn:Hf; [|done].
  assert ({| ins_point := p; ins_route := v; ins_position := i;
             ins_cost := marginal_cost r i p |} ∈ candidates st) as Hin.
  { apply elem_of_candidates. split; [done|]. by exists r. }
  rewrite Hnone in Hin. by apply elem_of_nil in Hin.
Qed.

(** The rule of step 3b leaves no choice. *)
Lemma chosen_unique (st : State) (c1 c2 : Insertion) :
  chosen st c1 -> chosen st c2 -> c1 = c2.
Proof.
  intros [Ha1 Hmin1] [Ha2 Hmin2].
  pose proof (Hmin1 c2 Ha2) as [Hle1 Htie1].
  pose proof (Hmin2 c1 Ha1) as [Hle2 Htie2].
  assert (ins_cost c1 = ins_cost c2) as Hcost by lia.
  specialize (Htie1 Hcost). specialize (Htie2 (eq_sym Hcost)).
  destruct c1, c2; simpl in *. f_equal; lia.
Qed.

Lemma next_insertion_done (st : State) :
  next_insertion st = Done <-> unrouted st = ∅.
Proof.
  unfold Routing.next_insertion. split.
  - destruct (elements (unrouted st)) eqn:He.
    + intros _. by apply elements_empty_inv in He; apply leibniz_equiv in He.
    + by destruct (select _).
  - intros ->. by rewrite elements_empty.
Qed.

Lemma next_insertion_insert (st : State) (c : Insertion) :
  next_insertion st = Insert c ->
  unrouted st <> ∅ /\ chosen st c.
Proof.
  intros H. split.
  - intros He%next_insertion_done. congruence.
  - unfold Routing.next_insertion in H.
    destruct (elements (unrouted st)); [done|].
    destruct (select (candidates st)) eqn:Hsel; [|done].
    injection H as ->. by apply select_chosen.
Qed.

Lemma next_insertion_stranded (st : State) (stranded : list nat) :
  next_insertion st = Stranded stranded ->
  unrouted st <> ∅
  /\ stranded = elements (unrouted st)
  /\ forall c, ~ admissible st c.
Proof.
  intros H. split.
  - intros He%next_insertion_done. congruence.
  - unfold Routing.next_insertion in H.
    destruct (elements (unrouted st)) eqn:He; [done|].
    destruct (select (candidates st)) eqn:Hsel; [done|].
    injection H as <-. split; [done|]. by apply select_none_admissible.
Qed.

Lemma chosen_next_insertion (st : State) (c : Insertion) :
  unrouted st <> ∅ -> chosen st c -> next_insertion st = Insert c.
Proof.
  intros Hne Hc.
  destruct (next_insertion st) as [|c'|stranded] eqn:Hnext.
  - by apply next_insertion_done in Hnext.
  - apply next_insertion_insert in Hnext as [_ Hc'].
    by rewrite (chosen_unique st c c').
  - apply next_insertion_stranded in Hnext as (_ & _ & Hnone).
    destruct Hc as [Hc _]. by destruct (Hnone c).
Qed.

Lemma apply_insertion_size (st : State) (c : Insertion) :
  ins_point c ∈ unrouted st ->
  size (unrouted st) = S (size (unrouted (apply_insertion c st))).
Proof.
  intros Hin. simpl.
  rewrite (size_difference (unrouted st) {[ins_point c]})
    by (by apply singleton_subseteq_l).
  rewrite size_singleton.
  assert (size (unrouted st) <> 0%nat); [|lia].
  intros Hz%size_empty_inv. apply leibniz_equiv in Hz.
  rewrite Hz in Hin. by apply not_elem_of_empty in Hin.
Qed.

(** With one unit of fuel for every unrouted point the loop follows the
    relation to its end: it never runs out. *)
Lemma construct_loop_Builds (fuel : nat) (st : State) :
  (size (unrouted st) <= fuel)%nat ->
  Builds st (insertions (construct_loop fuel st))
            (result (construct_loop fuel st)).
Proof.
  revert st. induction fuel as [|fuel IH]; intros st Hsize.
  - assert (unrouted st = ∅) as Hempty.
    { apply leibniz_equiv, size_empty_inv. lia. }
    simpl. rewrite (proj2 (next_insertion_done st) Hempty). simpl.
    by constructor.
  - simpl. destruct (next_insertion st) as [|c|stranded] eqn:Hnext; simpl.
    + apply next_insertion_done in Hnext. by constructor.
    + apply next_insertion_insert in Hnext as [Hne Hc].
      apply Builds_step; [done|done|]. apply IH.
      destruct Hc as [[Hin _] _].
      pose proof (apply_insertion_size st c Hin). lia.
    + apply next_insertion_stranded in Hnext as (Hne & -> & Hnone).
      by apply Builds_stuck.
Qed.

(** Two runs that follow the rule perform the same insertions and end
    alike. *)
Lemma Builds_deterministic (st : State) (log1 log2 : list Insertion)
    (res1 res2 : Verdict) :
  Builds st log1 res1 -> Builds st log2 res2 ->
  log1 = log2 /\ res1 = res2.
Proof.
  intros H1. revert log2 res2.
  induction H1 as [st He|st Hne Hnone|st c log res Hne Hc H1 IH];
    intros log2 res2 H2; inversion H2; subst; try done.
  - by destruct (Hnone c) as []; destruct H0.
  - by destruct (H0 c) as []; destruct Hc.
  - assert (c = c0) as <- by (by apply (chosen_unique st)).
    destruct (IH _ _ H3) as [-> ->]. done.
Qed.

End Construction.

(* ================================================================== *)
(** ** Invariants of the construction *)

Section Invariants.
Import Routing.

Variable n : nat.
Variable fleet : nat.
Variable distance : nat -> nat -> Z.
Variable demand : nat -> N.
Variable capacity : N.

Local Abbreviation load := (current_cumulative_load demand).
Local Abbreviation load_at := (cumulative_load_at demand).
Local Abbreviation within := (within_capacity demand capacity).
Local Abbreviation admissible := (admissible distance demand capacity).
Local Abbreviation next_insertion := (next_insertion distance demand capacity).
Local Abbreviation construct_loop := (construct_loop distance demand capacity).
Local Abbreviation Builds := (Builds distance demand capacity).
Local Abbreviation steps_to := (steps_to distance demand capacity).
Local Abbreviation valid := (valid_instance n demand capacity).
Local Abbreviation initial := (initial_state n fleet).
Local Abbreviation reachable := (reachable n fleet distance demand capacity).
Local Abbreviation construct := (construct n fleet distance demand capacity).

(** *** Loads *)

Lemma load_app (r1 r2 : Route) : load (r1 ++ r2) = (load r1 + load r2)%N.
Proof.
  induction r1 as [|p r1 IH]; simpl; [done|]. rewrite IH. lia.
Qed.

Lemma load_at_S (r : Route) (position : nat) (p : nat) :
  r !! S position = Some p ->
  load_at r (S position) = (load_at r position + demand p)%N.
Proof.
  intros Hp. unfold cumulative_load_at.
  rewrite (take_S_r r (S position) p Hp), load_app. simpl. lia.
Qed.

Lemma within_capacity_spec (r : Route) :
  within r = true <->
  forall position, (position < length r)%nat ->
                   (load_at r position <= capacity)%N.
Proof.
  unfold within_capacity. rewrite forallb_forall. split.
  - intros H position Hlt. apply N.leb_le, H, in_seq. lia.
  - intros H position Hin%in_seq. apply N.leb_le, H. lia.
Qed.

Lemma load_take_le (r : Route) (k : nat) : (load (take k r) <= load r)%N.
Proof.
  rewrite <- (take_drop k r) at 2. rewrite load_app. lia.
Qed.

Lemma load_insert_at (r : Route) (i p : nat) :
  load (insert_at r i p) = (load r + demand p)%N.
Proof.
  unfold insert_at. rewrite <- (take_drop (S i) r) at 3.
  rewrite !load_app. simpl. lia.
Qed.

(** A route that is not empty is within capacity exactly when its whole
    load is: the loads only grow along it. *)
Lemma within_capacity_whole (r : Route) :
  r <> [] -> within r = (load r <=? capacity)%N.
Proof.
  intros Hr. apply eq_true_iff_eq.
  rewrite within_capacity_spec, N.leb_le. split.
  - intros H. specialize (H (length r - 1)%nat).
    unfold cumulative_load_at in H.
    rewrite take_ge in H by lia. apply H.
    destruct r; [done|simpl; lia].
  - intros H position _. unfold cumulative_load_at.
    pose proof (load_take_le r (S position)). lia.
Qed.

(** The feasibility of an insertion does not depend on the position: it is
    [can_append] on the whole route. *)
Lemma feasible_whole_route (r : Route) (i p : nat) :
  feasible demand capacity r i p = can_append demand capacity r p.
Proof.
  unfold feasible, can_append.
  rewrite within_capacity_whole
    by (unfold insert_at; by destruct (take (S i) r)).
  rewrite load_insert_at.
  destruct (N.leb_spec (load r + demand p) capacity) as [Hle|Hgt].
  - rewrite andb_true_r. apply N.leb_le.
    pose proof (load_take_le r (S i)). lia.
  - apply andb_false_r.
Qed.

(** *** Occurrences of a point *)

Lemma count_occ_insert_at (r : Route) (i q p : nat) :
  count_occ Nat.eq_dec (insert_at r i q) p
  = (count_occ Nat.eq_dec r p + if decide (q = p) then 1 else 0)%nat.
Proof.
  unfold insert_at.
  rewrite <- (take_drop (S i) r) at 3.
  rewrite !count_occ_app. simpl.
  destruct (Nat.eq_dec q p), (decide (q = p)); try done; lia.
Qed.

Lemma count_occ_concat_alter (f : Route -> Route) (rs : list Route)
    (v : nat) (r : Route) (p : nat) :
  rs !! v = Some r ->
  (count_occ Nat.eq_dec (concat (alter f v rs)) p + count_occ Nat.eq_dec r p
   = count_occ Nat.eq_dec (concat rs) p + count_occ Nat.eq_dec (f r) p)%nat.
Proof.
  revert v. induction rs as [|r0 rs IH]; intros v Hv; [done|].
  destruct v as [|v]; simpl in *.
  - injection Hv as ->. rewrite !count_occ_app. lia.
  - rewrite !count_occ_app. specialize (IH v Hv).
    change (list_alter f v rs) with (alter f v rs). lia.
Qed.

(** *** Shape of the routes *)

Lemma insert_at_shaped (r : Route) (i q : nat) :
  (S i < length r)%nat -> tour_shaped r -> tour_shaped (insert_at r i q).
Proof.
  intros Hi (Hlen & Hhead & Hlast). unfold insert_at. repeat split.
  - rewrite length_app, length_take. simpl. rewrite length_drop. lia.
  - destruct r as [|a r]; [done|]. done.
  - rewrite <- (take_drop (S i) r), last_app in Hlast.
    rewrite last_app, last_cons.
    destruct (last (drop (S i) r)) eqn:Hd; [done|].
    apply last_None in Hd. apply (f_equal length) in Hd.
    rewrite length_drop in Hd. simpl in Hd. lia.
Qed.

(** *** The invariant of the loop *)

Local Abbreviation consistent := (consistent n fleet demand capacity).

Lemma count_occ_empty_tours (k p : nat) :
  p <> 0%nat ->
  count_occ Nat.eq_dec (concat (replicate k [0%nat; 0%nat])) p = 0%nat.
Proof.
  intros Hp. destruct p as [|p]; [done|].
  induction k as [|k IH]; simpl; [done|]. apply IH.
Qed.

Lemma valid_instance_spec :
  valid = true <->
  demand 0%nat = 0%N /\ forall p, (p < n)%nat -> (demand p <= capacity)%N.
Proof.
  unfold valid_instance. rewrite andb_true_iff, N.eqb_eq, forallb_forall.
  split; intros [H0 H]; (split; [done|]).
  - intros p Hp. apply N.leb_le, H, in_seq. lia.
  - intros p Hp%in_seq. apply N.leb_le, H. lia.
Qed.

Lemma consistent_initial : valid = true -> consistent initial.
Proof.
  intros [Hdepot _]%valid_instance_spec. unfold Routing.consistent. simpl.
  split; [apply length_replicate|].
  split; [by apply Forall_replicate|].
  split.
  { apply Forall_replicate, within_capacity_spec.
    intros [|[|position]] Hlt; simpl in Hlt; try lia;
      unfold cumulative_load_at; simpl; rewrite Hdepot; lia. }
  split.
  { intros p Hp%elem_of_list_to_set%elem_of_seq. lia. }
  intros p Hp. rewrite count_occ_empty_tours by done.
  destruct (decide (p ∈ _)) as [|Hout]; [done|].
  destruct (decide (1 <= p < n)%nat) as [Hin|]; [|done].
  destruct Hout. apply elem_of_list_to_set, elem_of_seq. lia.
Qed.

Lemma consistent_step (st : State) (c : Insertion) :
  consistent st -> admissible st c -> consistent (apply_insertion c st).
Proof.
  intros (Hlen & Hshape & Hcap & Hun & Hcount)
         (Hp & r & Hr & Hpos & Hfeas & _).
  apply andb_true_iff in Hfeas as [_ Hfeas].
  unfold Routing.consistent. simpl.
  split; [by rewrite length_alter|].
  split.
  { apply Forall_alter; [done|]. intros r' Hr' Hs.
    rewrite Hr in Hr'. injection Hr' as <-. by apply insert_at_shaped. }
  split.
  { apply Forall_alter; [done|]. intros r' Hr' _.
    rewrite Hr in Hr'. by injection Hr' as <-. }
  split.
  { intros p [Hin _]%elem_of_difference. by apply Hun. }
  intros p Hp0.
  pose proof (count_occ_concat_alter
                (fun r => insert_at r (ins_position c) (ins_point c))
                (routes st) (ins_route c) r p Hr) as Halter.
  cbv beta in Halter. rewrite count_occ_insert_at in Halter.
  specialize (Hcount p Hp0).
  destruct (decide (ins_point c = p)) as [<-|Hne].
  - rewrite decide_True in Hcount by done.
    rewrite decide_False
      by (rewrite elem_of_difference, elem_of_singleton; tauto).
    rewrite decide_True by (by apply Hun). lia.
  - destruct (decide (p ∈ unrouted st)) as [Hin|Hout].
    + rewrite decide_True
        by (rewrite elem_of_difference, elem_of_singleton; split; congruence).
      lia.
    + rewrite decide_False
        by (rewrite elem_of_difference; tauto).
      lia.
Qed.

Lemma steps_to_admissible (st st' : State) :
  steps_to st st' ->
  exists c, unrouted st <> ∅
            /\ chosen distance demand capacity st c
            /\ st' = apply_insertion c st.
Proof.
  intros (c & [Hne Hc]%next_insertion_insert & ->). by exists c.
Qed.

Lemma reachable_consistent (st : State) : reachable st -> consistent st.
Proof.
  intros [Hvalid Hsteps].
  apply (rtc_ind_r (R := steps_to) (fun s => consistent s) initial);
    [..|exact Hsteps].
  - by apply consistent_initial.
  - intros st1 st2 _ Hstep IH.
    apply steps_to_admissible in Hstep as (c & _ & [Hc _] & ->).
    by apply consistent_step.
Qed.

(** *** The loop and the states it passes through *)

Lemma construct_loop_ok (fuel : nat) (st : State) (sol : list Route) :
  result (construct_loop fuel st) = Solution sol ->
  exists st', rtc steps_to st st' /\ unrouted st' = ∅ /\ routes st' = sol.
Proof.
  revert st. induction fuel as [|fuel IH]; intros st; simpl;
    destruct (next_insertion st) as [|c|stranded] eqn:Hnext; simpl; try done.
  - intros [= <-]. exists st. by apply next_insertion_done in Hnext.
  - intros [= <-]. exists st. by apply next_insertion_done in Hnext.
  - intros (st' & Hsteps & Hdone)%IH. exists st'. split; [|done].
    eapply rtc_l; [|done]. by exists c.
Qed.

Lemma construct_ok_reachable (sol : list Route) :
  result construct = Solution sol ->
  exists st, reachable st /\ unrouted st = ∅ /\ routes st = sol.
Proof.
  unfold Routing.construct. destruct valid eqn:Hvalid; [|done].
  intros (st & Hsteps & Hdone)%construct_loop_ok. by exists st.
Qed.

Lemma steps_Builds (st st' : State) (log : list Insertion)
    (res : Verdict) :
  rtc steps_to st st' -> Builds st' log res ->
  exists log', Builds st log' res.
Proof.
  intros Hsteps. revert log.
  induction Hsteps as [|st1 st2 st3 Hstep _ IH]; intros log Hb.
  - by exists log.
  - destruct (IH log Hb) as [log' Hb'].
    apply steps_to_admissible in Hstep as (c & Hne & Hc & ->).
    exists (c :: log'). by apply Builds_step.
Qed.

Lemma size_initial_unrouted : size (unrouted initial) = (n - 1)%nat.
Proof.
  simpl. rewrite size_list_to_set by apply NoDup_seq. apply length_seq.
Qed.

(** The Route Constructor is a run of the relation. *)
Lemma construct_Constructs :
  Constructs n fleet distance demand capacity construct.
Proof.
  unfold Constructs, Routing.construct. destruct valid; [|done].
  apply construct_loop_Builds. by rewrite size_initial_unrouted.
Qed.

Lemma Constructs_unique (run : Run) :
  Constructs n fleet distance demand capacity run -> run = construct.
Proof.
  intros Hrun. pose proof construct_Constructs as Hc.
  unfold Constructs in *. destruct valid eqn:Hvalid.
  - destruct (Builds_deterministic _ _ _ _ _ _ _ _ Hrun Hc) as [Hl Hr].
    destruct run, construct. simpl in *. congruence.
  - unfold Routing.construct. by rewrite Hvalid.
Qed.

(** A run ends with a Solution or with the infeasibility error, nothing
    else. *)
Lemma Builds_result (st : State) (log : list Insertion)
    (res : Verdict) :
  Builds st log res ->
  (exists sol, res = Solution sol)
  \/ (exists stranded, res = Failure (ConstructionInfeasible stranded)).
Proof.
  induction 1 as [st _|st _ _|st c log res _ _ _ IH]; [left|right|done];
    by eexists.
Qed.

Lemma construct_result :
  (exists sol, result construct = Solution sol)
  \/ result construct = Failure InvalidInstance
  \/ (exists stranded,
        result construct = Failure (ConstructionInfeasible stranded)).
Proof.
  pose proof construct_Constructs as Hc. unfold Constructs in Hc.
  destruct valid eqn:Hvalid.
  - apply Builds_result in Hc as [Hok|Herr]; [by left|by right; right].
  - right; left. unfold Routing.construct. by rewrite Hvalid.
Qed.

(** The tours of a consistent state visit points of the instance only. *)
Lemma consistent_points (st : State) (r : Route) (p : nat) :
  (0 < n)%nat -> consistent st -> r ∈ routes st -> p ∈ r -> (p < n)%nat.
Proof.
  intros Hn (_ & _ & _ & Hun & Hcount) Hr Hp.
  destruct (decide (p = 0%nat)) as [->|Hp0]; [done|].
  assert (0 < count_occ Nat.eq_dec (concat (routes st)) p)%nat as Hpos.
  { apply count_occ_In, in_concat. exists r.
    split; by apply list_elem_of_In. }
  rewrite (Hcount p Hp0) in Hpos.
  destruct (decide (p ∈ unrouted st)); [lia|].
  destruct (decide (1 <= p < n)%nat); lia.
Qed.

End Invariants.

(* ================================================================== *)
(** ** The Route Constructor *)

Section ConstructorClaims.
Import Routing Samples.

Variable n : nat.
Variable fleet : nat.
Variable distance : nat -> nat -> Z.
Variable demand : nat -> N.
Variable capacity : N.

Local Abbreviation load_at := (cumulative_load_at demand).
Local Abbreviation reachable := (reachable n fleet distance demand capacity).
Local Abbreviation construct := (construct n fleet distance demand capacity).

(** C1: when the construction succeeds, the Solution has one route per
    vehicle and every non-depot point index 1..N-1 occurs exactly once in
    the union of the routes: on no two routes, not twice on one, and none
    is left out; an index that is no point of the instance occurs on no
    route. *)
Theorem every_point_routed_once (sol : list Route) :
  result construct = Solution sol ->
  length sol = fleet
  /\ forall p, p <> 0%nat ->
       count_occ Nat.eq_dec (concat sol) p
       = if decide (p < n)%nat then 1%nat else 0%nat.
Proof.
  intros (st & Hreach%reachable_consistent & Hdone & <-)%construct_ok_reachable.
  destruct Hreach as (Hlen & _ & _ & _ & Hcount).
  split; [done|]. intros p Hp. rewrite (Hcount p Hp), Hdone.
  rewrite decide_False by apply not_elem_of_empty.
  destruct (decide (1 <= p < n)%nat), (decide (p < n)%nat); try done; lia.
Qed.

Lemma consistent_loads (st : State) (r : Route) (position : nat) :
  valid_instance n demand capacity = true ->
  consistent n fleet demand capacity st ->
  r ∈ routes st ->
  (position < length r)%nat ->
  load_at r 0 = 0%N
  /\ (load_at r position <= capacity)%N
  /\ ((S position < length r)%nat ->
      (load_at r position <= load_at r (S position))%N).
Proof.
  intros [Hdepot _]%valid_instance_spec (_ & Hshape & Hcap & _) Hr Hpos.
  rewrite Forall_forall in Hshape, Hcap.
  destruct (Hshape r Hr) as (_ & Hhead & _).
  split; [|split].
  - destruct r as [|p r]; [done|]. injection Hhead as ->.
    unfold cumulative_load_at. simpl. rewrite Hdepot. lia.
  - apply (proj1 (within_capacity_spec demand capacity r)); [|done].
    by apply Hcap.
  - intros Hnext.
    destruct (lookup_lt_is_Some_2 r (S position) Hnext) as [p Hp].
    rewrite (load_at_S demand r position p Hp). lia.
Qed.

(** C2: on every route of a Solution, and on every route of every state
    the construction passes through, the cumulative load starts at 0 at
    the depot, is at most the vehicle capacity at every position, and
    does not decrease from one position to the next. *)
Theorem loads_within_capacity :
  (forall sol r position,
     result construct = Solution sol ->
     r ∈ sol ->
     (position < length r)%nat ->
     load_at r 0 = 0%N
     /\ (load_at r position <= capacity)%N
     /\ ((S position < length r)%nat ->
         (load_at r position <= load_at r (S position))%N))
  /\ (forall st r position,
        reachable st ->
        r ∈ routes st ->
        (position < length r)%nat ->
        load_at r 0 = 0%N
        /\ (load_at r position <= capacity)%N
        /\ ((S position < length r)%nat ->
            (load_at r position <= load_at r (S position))%N)).
Proof.
  split.
  - intros sol r position (st & Hreach & _ & <-)%construct_ok_reachable.
    apply consistent_loads; [apply Hreach|].
    by apply (reachable_consistent n fleet distance).
  - intros st r position Hreach.
    apply consistent_loads; [apply Hreach|].
    by apply (reachable_consistent n fleet distance).
Qed.

(** C4: when some point demands more than a vehicle carries, the Route
    Constructor raises InvalidInstance and has performed no insertion;
    the error is another one than the infeasibility met during
    construction, which such an instance never raises. *)
Theorem oversized_demand_rejected (p : nat) :
  (p < n)%nat ->
  (capacity < demand p)%N ->
  construct = {| insertions := []; result := Failure InvalidInstance |}
  /\ forall stranded,
       InvalidInstance <> ConstructionInfeasible stranded
       /\ result construct <> Failure (ConstructionInfeasible stranded).
Proof.
  intros Hp Hbig.
  assert (valid_instance n demand capacity = false) as Hinvalid.
  { apply not_true_iff_false. intros [_ Hall]%valid_instance_spec.
    specialize (Hall p Hp). lia. }
  unfold Routing.construct. rewrite Hinvalid. by split.
Qed.

(** C5: when the construction comes to a state with points still
    unrouted, none of which has a capacity-feasible insertion into any
    route, it ends with the ConstructionInfeasible error; the error
    names the unrouted points of that state, at least one, and no
    Solution results. *)
Theorem stranded_points_reported (st : State) :
  reachable st ->
  unrouted st <> ∅ ->
  (forall p v r i,
     p ∈ unrouted st -> routes st !! v = Some r -> (S i < length r)%nat ->
     feasible demand capacity r i p = false) ->
  exists log stranded,
    construct
    = {| insertions := log;
         result := Failure (ConstructionInfeasible stranded) |}
    /\ stranded <> []
    /\ (forall p, p ∈ stranded <-> p ∈ unrouted st)
    /\ forall sol, result construct <> Solution sol.
Proof.
  intros [Hvalid Hsteps] Hne Hnone.
  assert (forall c, ~ admissible distance demand capacity st c) as Hstuck.
  { intros c (Hp & r & Hr & Hpos & Hfeas & _).
    rewrite (Hnone _ _ _ _ Hp Hr Hpos) in Hfeas. done. }
  destruct (steps_Builds _ _ _ _ _ _ _ Hsteps
              (Builds_stuck distance demand capacity st Hne Hstuck))
    as [log Hlog].
  pose proof (construct_Constructs n fleet distance demand capacity) as Hc.
  unfold Constructs in Hc. rewrite Hvalid in Hc.
  destruct (Builds_deterministic _ _ _ _ _ _ _ _ Hc Hlog) as [Hl Hr].
  exists log, (elements (unrouted st)). split; [|split; [|split]].
  - destruct construct. simpl in *. congruence.
  - intros He. apply Hne. by apply leibniz_equiv, elements_empty_inv.
  - intros p. apply elem_of_elements.
  - intros sol. by rewrite Hr.
Qed.

(** C8: the construction is a function of the Problem Instance: two runs
    of the Route Constructor on the same instance, both selecting by
    minimum marginal cost with ties broken by lowest point index, then
    lowest route index, then lowest position, perform the same insertions
    and end with the same routes. *)
Theorem construction_deterministic (run1 run2 : Run) :
  Constructs n fleet distance demand capacity run1 ->
  Constructs n fleet distance demand capacity run2 ->
  insertions run1 = insertions run2 /\ result run1 = result run2.
Proof.
  intros H1%Constructs_unique H2%Constructs_unique. by subst.
Qed.

End ConstructorClaims.

Section ConstructorWitnesses.
Import Routing Samples.

(** The scenario of the specification: depot and four customers of
    demand 1, capacity 2, two vehicles. *)
Lemma every_point_routed_once_witness :
  result (construct 5 2 line_distance unit_demand 2)
  = Solution [[0; 2; 1; 0]; [0; 4; 3; 0]]%nat
  /\ length [[0; 2; 1; 0]; [0; 4; 3; 0]]%nat = 2%nat
  /\ forall p, p <> 0%nat ->
       count_occ Nat.eq_dec (concat [[0; 2; 1; 0]; [0; 4; 3; 0]]%nat) p
       = if decide (p < 5)%nat then 1%nat else 0%nat.
Proof.
  split; [vm_compute; reflexivity|].
  apply (every_point_routed_once 5 2 line_distance unit_demand 2).
  vm_compute; reflexivity.
Defined.

Lemma loads_within_capacity_witness :
  result (construct 5 2 line_distance unit_demand 2)
  = Solution [[0; 2; 1; 0]; [0; 4; 3; 0]]%nat
  /\ cumulative_load_at unit_demand [0; 2; 1; 0]%nat 0 = 0%N
  /\ (cumulative_load_at unit_demand [0; 2; 1; 0]%nat 2 <= 2)%N
  /\ ((3 < length [0; 2; 1; 0]%nat)%nat ->
      (cumulative_load_at unit_demand [0; 2; 1; 0]%nat 2
       <= cumulative_load_at unit_demand [0; 2; 1; 0]%nat 3)%N).
Proof.
  split; [vm_compute; reflexivity|].
  destruct (loads_within_capacity 5 2 line_distance unit_demand 2)
    as [Hsolution _].
  apply (Hsolution [[0; 2; 1; 0]; [0; 4; 3; 0]]%nat).
  - vm_compute; reflexivity.
  - left.
  - simpl; lia.
Defined.

(** The scenario of the specification: capacity 5, one point of demand
    10. *)
Lemma oversized_demand_rejected_witness :
  (1 < 2)%nat
  /\ (5 < oversized_demand 1)%N
  /\ construct 2 1 line_distance oversized_demand 5
     = {| insertions := []; result := Failure InvalidInstance |}.
Proof.
  split; [lia|]. split; [reflexivity|].
  apply (oversized_demand_rejected 2 1 line_distance oversized_demand 5 1).
  - lia.
  - reflexivity.
Defined.

Lemma stuck_state_reachable :
  reachable 3 1 line_distance heavy_demand 2 stuck_state.
Proof.
  split; [vm_compute; reflexivity|].
  apply rtc_once. eexists. split; [vm_compute; reflexivity|reflexivity].
Defined.

Lemma stuck_state_unrouted : unrouted stuck_state <> ∅.
Proof.
  intros Hempty. apply (not_elem_of_empty (C := gset nat) 2%nat).
  rewrite <- Hempty.
  apply (elem_of_difference (C := gset nat)). split.
  - apply elem_of_list_to_set, elem_of_seq. simpl. lia.
  - intros Heq%elem_of_singleton. discriminate.
Defined.

Lemma stranded_points_reported_witness :
  exists log stranded,
    construct 3 1 line_distance heavy_demand 2
    = {| insertions := log;
         result := Failure (ConstructionInfeasible stranded) |}
    /\ stranded <> []
    /\ (forall p, p ∈ stranded <-> p ∈ unrouted stuck_state)
    /\ forall sol,
         result (construct 3 1 line_distance heavy_demand 2) <> Solution sol.
Proof.
  apply (stranded_points_reported 3 1 line_distance heavy_demand 2
                                  stuck_state).
  - exact stuck_state_reachable.
  - exact stuck_state_unrouted.
  - apply (no_candidates_infeasible line_distance). vm_compute; reflexivity.
Defined.

Lemma construction_deterministic_witness :
  Constructs 5 2 line_distance unit_demand 2
             (construct 5 2 line_distance unit_demand 2)
  /\ insertions (construct 5 2 line_distance unit_demand 2)
     = insertions (construct 5 2 line_distance unit_demand 2)
  /\ result (construct 5 2 line_distance unit_demand 2)
     = result (construct 5 2 line_distance unit_demand 2).
Proof.
  split; [apply construct_Constructs|].
  apply (construction_deterministic 5 2 line_distance unit_demand 2);
    apply construct_Constructs.
Defined.

End ConstructorWitnesses.

(* ================================================================== *)
(** ** The printer *)

Section Printer.
Import Routing Cvrp.

Variable fuel : nat.
Variable routing : RoutingModel.
Variable assignment : Assignment.
Variable capacity_dimension : string.

Local Abbreviation route_reported :=
  (route_reported fuel routing assignment capacity_dimension).

Lemma follow_route_ends (k : nat) (vehicle_id : Z) (index : Index)
    (plan_output : list (nat * Z)) (distance : Z)
    (index' : Index) (stops : list (nat * Z)) (distance' : Z) :
  follow_route k routing assignment capacity_dimension vehicle_id index
               plan_output distance = Ok (index', stops, distance') ->
  IsEnd routing index' = true.
Proof.
  revert index plan_output distance.
  induction k as [|k IH]; intros index plan_output distance; simpl;
    destruct (IsEnd routing index) eqn:Hend; try done.
  - by intros [= <- _ _].
  - by intros [= <- _ _].
  - apply IH.
Qed.

Lemma for_each_report_route (vehicle_ids : list Z) (printed0 : list Line)
    (total_distance0 total_load0 : Z) (printed : list Line)
    (total_distance total_load : Z) :
  for_each vehicle_ids
           (report_route fuel routing assignment capacity_dimension)
           (printed0, total_distance0, total_load0)
  = Ok (printed, total_distance, total_load) ->
  exists plans,
    printed = printed0 ++ plans
    /\ total_distance = total_distance0 + sum_Z (map plan_distance plans)
    /\ total_load = total_load0 + sum_Z (map plan_final_load plans)
    /\ Forall2 route_reported vehicle_ids plans.
Proof.
  revert printed0 total_distance0 total_load0.
  induction vehicle_ids as [|vehicle_id vehicle_ids IH];
    intros printed0 total_distance0 total_load0; simpl.
  - intros [= <- <- <-]. exists []. rewrite app_nil_r. simpl.
    repeat split; try lia. constructor.
  - destruct (follow_route fuel routing assignment capacity_dimension
                vehicle_id (Start routing vehicle_id) [] 0)
      as [[[index stops] distance]| |] eqn:Hwalk; simpl; try done.
    intros (plans & -> & -> & -> & Hplans)%IH.
    eexists (_ :: plans). rewrite <- app_assoc. simpl.
    split; [reflexivity|]. fold sum_Z. cbn [plan_distance plan_final_load snd].
    split; [lia|]. split; [lia|].
    constructor; [|done]. exists index, stops, distance.
    split; [done|]. split; [|done]. by eapply follow_route_ends.
Qed.

End Printer.

Section PrinterClaims.
Import Routing Cvrp.

Lemma GetDimensionOrDie_ok (routing : RoutingModel) (name handle : string) :
  GetDimensionOrDie routing name = Ok handle -> handle = name.
Proof.
  unfold GetDimensionOrDie. destruct (dimension routing) as [d|]; [|done].
  destruct (String.eqb (dim_name d) name); [|done]. by intros [= <-].
Qed.

(** Everything [print_solution] prints, when it returns. *)
Lemma print_solution_printed (fuel : nat) (data : DataProblem)
    (routing : RoutingModel) (assignment : Assignment)
    (printed : list Line) :
  print_solution fuel data routing assignment = Ok printed ->
  exists plans,
    printed
    = Objective (ObjectiveValue assignment)
      :: plans ++ [TotalDistance (sum_Z (map plan_distance plans));
                   TotalLoad (sum_Z (map plan_final_load plans))]
    /\ Forall2 (route_reported fuel routing assignment "Capacity")
               (xrange (num_vehicles data)) plans.
Proof.
  unfold print_solution.
  destruct (GetDimensionOrDie routing "Capacity") as [handle| |] eqn:Hdim;
    simpl; try done.
  apply GetDimensionOrDie_ok in Hdim as ->.
  destruct (for_each _ _ _) as [[[printed' total_distance] total_load]| |]
    eqn:Hloop; simpl; try done.
  apply for_each_report_route in Hloop as (plans & -> & -> & -> & Hplans).
  intros [= <-]. exists plans. by split.
Qed.

(** With one unit of fuel per leg the walk along a tour comes to its end. *)
Lemma follow_route_returns (routing : RoutingModel) (name : string)
    (vehicle_id : Z) (v : nat) (k : nat) :
  forall (position : nat) (plan_output : list (nat * Z)) (distance : Z),
    (length (tour routing v) - 1 - position <= k)%nat ->
    exists walked,
      follow_route k routing (assignment_of routing) name vehicle_id
                   (v, position) plan_output distance = Ok walked.
Proof.
  induction k as [|k IH]; intros position plan_output distance Hk; simpl;
    unfold IsEnd; simpl;
    destruct (Nat.leb_spec (length (tour routing v)) (S position))
      as [Hend|Hmore]; try by eexists.
  - lia.
  - apply IH. lia.
Qed.

Lemma for_each_report_route_returns (fuel : nat) (routing : RoutingModel)
    (name : string) (vehicle_ids : list Z) :
  (forall v, (length (tour routing v) <= S fuel)%nat) ->
  forall acc,
    exists acc',
      for_each vehicle_ids
               (report_route fuel routing (assignment_of routing) name) acc
      = Ok acc'.
Proof.
  intros Hfuel. induction vehicle_ids as [|vehicle_id vehicle_ids IH];
    intros [[printed total_distance] total_load]; simpl; [by eexists|].
  destruct (follow_route_returns routing name vehicle_id
              (Z.to_nat vehicle_id) fuel 0 [] 0) as [[[index stops] d] Hwalk].
  { specialize (Hfuel (Z.to_nat vehicle_id)). lia. }
  unfold Start. rewrite Hwalk. simpl. apply IH.
Qed.

(** The printer returns on every Solution the routing object can hold,
    given the capacity dimension and fuel for the longest tour. *)
Lemma print_solution_returns (fuel : nat) (data : DataProblem)
    (routing : RoutingModel) :
  GetDimensionOrDie routing "Capacity" = Ok "Capacity"%string ->
  (forall r, r ∈ tours routing -> (length r <= S fuel)%nat) ->
  exists printed,
    print_solution fuel data routing (assignment_of routing) = Ok printed.
Proof.
  intros Hdim Hfuel.
  assert (forall v, (length (tour routing v) <= S fuel)%nat) as Htours.
  { intros v. unfold tour.
    destruct (nth_in_or_default v (tours routing) []) as [Hin| ->].
    - by apply Hfuel, list_elem_of_In.
    - simpl. lia. }
  destruct (for_each_report_route_returns
              fuel routing "Capacity" (xrange (num_vehicles data)) Htours
              ([Objective (ObjectiveValue (assignment_of routing))], 0, 0))
    as [[[printed total_distance] total_load] Hloop].
  unfold print_solution, bind. rewrite Hdim. cbv beta iota.
  rewrite Hloop. by eexists.
Qed.

(** The walk of the printer along a tour held by [routing]. *)
Lemma follow_route_tour (k : nat) (routing : RoutingModel) (name : string)
    (vehicle_id : Z) (v : nat) (r : Route) :
  tour routing v = r ->
  forall (position : nat) (plan_output : list (nat * Z)) (distance : Z)
         (index : Index) (stops : list (nat * Z)) (distance' : Z),
    (position < length r)%nat ->
    follow_route k routing (assignment_of routing) name vehicle_id
                 (v, position) plan_output distance
    = Ok (index, stops, distance') ->
    index = (v, (length r - 1)%nat)
    /\ distance'
       = distance + legs_distance (cost_oracle routing) (drop position r)
    /\ stops
       = plan_output
         ++ map (fun j => (nth j r 0%nat,
                           CumulValue (assignment_of routing) name (v, j)))
                (seq position (length r - 1 - position)).
Proof.
  intros Htour.
  induction k as [|k IH];
    intros position plan_output distance index stops distance' Hpos; simpl;
    unfold IsEnd; simpl; rewrite Htour;
    destruct (Nat.leb_spec (length r) (S position)) as [Hend|Hmore];
    try done.
  - intros [= <- <- <-].
    assert (position = (length r - 1)%nat) as -> by lia.
    replace (length r - 1 - (length r - 1))%nat with 0%nat by lia.
    destruct (lookup_lt_is_Some_2 r (length r - 1)%nat) as [a Ha]; [lia|].
    rewrite (drop_S _ _ _ Ha), drop_ge by lia. simpl.
    rewrite app_nil_r. split; [done|]. split; [lia|done].
  - intros [= <- <- <-].
    assert (position = (length r - 1)%nat) as -> by lia.
    replace (length r - 1 - (length r - 1))%nat with 0%nat by lia.
    destruct (lookup_lt_is_Some_2 r (length r - 1)%nat) as [a Ha]; [lia|].
    rewrite (drop_S _ _ _ Ha), drop_ge by lia. simpl.
    rewrite app_nil_r. split; [done|]. split; [lia|done].
  - intros Hwalk. apply IH in Hwalk as (-> & -> & ->); [|lia].
    destruct (lookup_lt_is_Some_2 r position) as [a Ha]; [lia|].
    destruct (lookup_lt_is_Some_2 r (S position)) as [b Hb]; [lia|].
    rewrite (drop_S _ _ _ Ha), (drop_S _ _ _ Hb).
    unfold GetArcCostForVehicle, IndexToNode. simpl. rewrite Htour.
    rewrite (nth_lookup_Some _ _ _ _ Ha), (nth_lookup_Some _ _ _ _ Hb).
    replace (length r - 1 - position)%nat
      with (S (length r - 1 - S position)) by lia.
    rewrite <- app_assoc. simpl.
    split; [done|]. split; [lia|].
    by rewrite (nth_lookup_Some _ _ _ _ Ha).
Qed.

Lemma map_nth_seq (r : Route) (k : nat) :
  (k <= length r)%nat -> map (fun j => nth j r 0%nat) (seq 0 k) = take k r.
Proof.
  induction k as [|k IH]; intros Hk; [by rewrite take_0|].
  destruct (lookup_lt_is_Some_2 r k) as [a Ha]; [lia|].
  rewrite seq_S, map_app, IH, (take_S_r _ _ _ Ha) by lia. simpl.
  by rewrite (nth_lookup_Some _ _ _ _ Ha).
Qed.

Lemma take_all_but_last (r : Route) :
  r <> [] ->
  take (length r - 1) r ++ [nth (length r - 1) r 0%nat] = r.
Proof.
  intros Hr.
  assert (0 < length r)%nat as Hlen by (destruct r; [done|simpl; lia]).
  destruct (lookup_lt_is_Some_2 r (length r - 1)%nat) as [a Ha]; [lia|].
  rewrite (nth_lookup_Some _ _ _ _ Ha), <- (take_S_r _ _ _ Ha).
  apply take_ge. lia.
Qed.

(** The plan the printer prints for the tour of vehicle [v]: the stops are
    the positions before the last with their loads, the last stop is the
    final position, the distance is the sum over the legs. *)
Lemma printed_route (fuel : nat) (data : DataProblem)
    (routing : RoutingModel) (printed : list Line) (v : nat) (r : Route) :
  print_solution fuel data routing (assignment_of routing) = Ok printed ->
  (v < num_vehicles data)%nat ->
  tours routing !! v = Some r ->
  r <> [] ->
  printed !! S v
  = Some (RoutePlan
            (Z.of_nat v)
            (map (fun j => (nth j r 0%nat,
                            CumulValue (assignment_of routing) "Capacity"
                                       (v, j)))
                 (seq 0 (length r - 1)))
            (nth (length r - 1) r 0%nat,
             CumulValue (assignment_of routing) "Capacity"
                        (v, (length r - 1)%nat))
            (legs_distance (cost_oracle routing) r)
            (CumulValue (assignment_of routing) "Capacity"
                        (v, (length r - 1)%nat))).
Proof.
  intros (plans & -> & Hplans)%print_solution_printed Hv Hr Hne.
  assert (xrange (num_vehicles data) !! v = Some (Z.of_nat v)) as Hid.
  { unfold xrange. rewrite list_lookup_fmap, lookup_seq_lt by done. done. }
  destruct (Forall2_lookup_l _ _ _ _ _ Hplans Hid)
    as (plan & Hplan & index & stops & distance & Hwalk & _ & ->).
  assert (tour routing v = r) as Htour.
  { unfold tour. by apply nth_lookup_Some. }
  assert (0 < length r)%nat as Hlen by (destruct r; [done|simpl; lia]).
  unfold Start in Hwalk. rewrite Nat2Z.id in Hwalk.
  apply (follow_route_tour _ _ _ _ v r Htour) in Hwalk
    as (-> & -> & ->); [|done].
  rewrite drop_0, Z.add_0_l, Nat.sub_0_r in Hplan. simpl in Hplan.
  unfold IndexToNode in Hplan. simpl in Hplan. rewrite Htour in Hplan.
  simpl. rewrite lookup_app_l by (by eapply lookup_lt_Some).
  by rewrite Htour.
Qed.

(** What the printer reports for the tour of vehicle [v], empty tour
    included: the distance is the sum over the legs of the tour, the load
    is the cumulative load at its final position. *)
Lemma reported_route_values (fuel : nat) (routing : RoutingModel) (v : nat)
    (plan : Line) :
  route_reported fuel routing (assignment_of routing) "Capacity"
                 (Z.of_nat v) plan ->
  exists stops last_stop,
    plan
    = RoutePlan (Z.of_nat v) stops last_stop
                (legs_distance (cost_oracle routing) (tour routing v))
                (Z.of_N (cumulative_load_at
                           (demand_oracle routing) (tour routing v)
                           (length (tour routing v) - 1)))
    /\ last_stop.2
       = Z.of_N (cumulative_load_at
                   (demand_oracle routing) (tour routing v)
                   (length (tour routing v) - 1)).
Proof.
  intros (index & stops & distance & Hwalk & _ & ->).
  unfold Start in Hwalk. rewrite Nat2Z.id in Hwalk.
  destruct (decide (0 < length (tour routing v))%nat) as [Hlen|Hlen].
  - apply (follow_route_tour _ _ _ _ v (tour routing v) eq_refl) in Hwalk
      as (-> & -> & _); [|done].
    rewrite drop_0, Z.add_0_l. by eexists _, _.
  - assert (tour routing v = []) as Hempty
      by (destruct (tour routing v); [done|simpl in Hlen; lia]).
    assert (IsEnd routing (v, 0%nat) = true) as Hend
      by (unfold IsEnd; simpl; by rewrite Hempty).
    destruct fuel; simpl in Hwalk; rewrite Hend in Hwalk;
      injection Hwalk as <- <- <-; eexists _, _; simpl;
      by rewrite Hempty.
Qed.

(** C6: for every completed Solution, held by [routing] with the capacity
    dimension declared, the printer returns given fuel for the longest
    route, and in what it prints the total distance is the sum of the
    route distances it reports and the total load is the sum of the loads
    of the last stops; there is one plan per vehicle, whose distance is the
    sum over the legs of the route and whose load is the cumulative load
    at the final position of the route. *)
Theorem totals_are_sums (fuel : nat) (data : DataProblem)
    (routing : RoutingModel) :
  GetDimensionOrDie routing "Capacity" = Ok "Capacity"%string ->
  (forall r, r ∈ tours routing -> (length r <= S fuel)%nat) ->
  exists printed plans,
    print_solution fuel data routing (assignment_of routing) = Ok printed
    /\ printed
       = Objective (ObjectiveValue (assignment_of routing))
         :: plans ++ [TotalDistance (sum_Z (map plan_distance plans));
                      TotalLoad (sum_Z (map plan_final_load plans))]
    /\ length plans = num_vehicles data
    /\ forall v plan,
         plans !! v = Some plan ->
         exists stops last_stop,
           plan
           = RoutePlan (Z.of_nat v) stops last_stop
                       (legs_distance (cost_oracle routing) (tour routing v))
                       (Z.of_N (cumulative_load_at
                                  (demand_oracle routing) (tour routing v)
                                  (length (tour routing v) - 1)))
           /\ last_stop.2
              = Z.of_N (cumulative_load_at
                          (demand_oracle routing) (tour routing v)
                          (length (tour routing v) - 1)).
Proof.
  intros Hdim Hfuel.
  destruct (print_solution_returns fuel data routing Hdim Hfuel)
    as [printed Hprinted].
  destruct (print_solution_printed _ _ _ _ _ Hprinted)
    as (plans & Hlines & Hplans).
  exists printed, plans. split; [done|]. split; [done|].
  pose proof (Forall2_length _ _ _ Hplans) as Hlen.
  unfold xrange in Hlen. rewrite length_fmap, length_seq in Hlen.
  split; [done|].
  intros v plan Hplan.
  destruct (Forall2_lookup_r _ _ _ _ _ Hplans Hplan)
    as (vehicle_id & Hid & Hreported).
  unfold xrange in Hid. rewrite list_lookup_fmap in Hid.
  destruct (seq 0 (num_vehicles data) !! v) as [v'|] eqn:Hv; [|done].
  apply lookup_seq in Hv as [-> _]. injection Hid as <-.
  by apply reported_route_values in Hreported.
Qed.

(** C7: for every route of a completed Solution, held by [routing] with
    the capacity dimension declared, the printer returns given fuel for
    the longest route, and the distance it reports for the route is the
    sum of the Cost Oracle distances over its consecutive legs, the
    closing leg back to the depot included, while the nodes it prints are
    the route; the empty route, depot to depot, is reported with distance
    0 and load 0, the oracle being 0 from a point to itself and the depot
    having no demand. *)
Theorem route_distance_is_sum_of_legs (fuel : nat) (data : DataProblem)
    (routing : RoutingModel) (v : nat) (r : Route) :
  GetDimensionOrDie routing "Capacity" = Ok "Capacity"%string ->
  (forall r', r' ∈ tours routing -> (length r' <= S fuel)%nat) ->
  (v < num_vehicles data)%nat ->
  tours routing !! v = Some r ->
  r <> [] ->
  exists printed stops last_stop load,
    print_solution fuel data routing (assignment_of routing) = Ok printed
    /\ printed !! S v
       = Some (RoutePlan (Z.of_nat v) stops last_stop
                         (legs_distance (cost_oracle routing) r) load)
    /\ map fst stops ++ [last_stop.1] = r
    /\ (r = [0; 0]%nat ->
        cost_oracle routing 0 0 = 0 ->
        demand_oracle routing 0 = 0%N ->
        printed !! S v
        = Some (RoutePlan (Z.of_nat v) [(0%nat, 0)] (0%nat, 0) 0 0)).
Proof.
  intros Hdim Hfuel Hv Hr Hne.
  destruct (print_solution_returns fuel data routing Hdim Hfuel)
    as [printed Hprinted].
  pose proof (printed_route _ _ _ _ _ _ Hprinted Hv Hr Hne) as Hplan.
  assert (0 < length r)%nat as Hlen by (destruct r; [done|simpl; lia]).
  exists printed. eexists _, _, _. split; [done|].
  split; [exact Hplan|]. split.
  - rewrite map_map. simpl. rewrite map_nth_seq by lia.
    by apply take_all_but_last.
  - intros -> Hdiag Hdepot. rewrite Hplan. simpl.
    assert (tour routing v = [0; 0]%nat) as ->
      by (unfold tour; by apply nth_lookup_Some).
    unfold cumulative_load_at. simpl.
    by rewrite Hdiag, Hdepot.
Qed.

End PrinterClaims.

Section PrinterWitnesses.
Import Routing Cvrp Samples.

Lemma line_printed_is_printed :
  print_solution 3 three_points line_routing (assignment_of line_routing)
  = Ok line_printed.
Proof. vm_compute; reflexivity. Defined.

Lemma line_routing_fuel (r : Route) :
  r ∈ tours line_routing -> (length r <= 4)%nat.
Proof.
  apply (proj1 (Forall_forall (fun r => (length r <= 4)%nat)
                              (tours line_routing))).
  repeat constructor.
Defined.

Lemma totals_are_sums_witness :
  print_solution 3 three_points line_routing (assignment_of line_routing)
  = Ok line_printed
  /\ exists printed plans,
       print_solution 3 three_points line_routing
                      (assignment_of line_routing)
       = Ok printed
       /\ printed
          = Objective (ObjectiveValue (assignment_of line_routing))
            :: plans ++ [TotalDistance (sum_Z (map plan_distance plans));
                         TotalLoad (sum_Z (map plan_final_load plans))]
       /\ length plans = num_vehicles three_points
       /\ forall v plan,
            plans !! v = Some plan ->
            exists stops last_stop,
              plan
              = RoutePlan
                  (Z.of_nat v) stops last_stop
                  (legs_distance (cost_oracle line_routing)
                                 (tour line_routing v))
                  (Z.of_N (cumulative_load_at
                             (demand_oracle line_routing)
                             (tour line_routing v)
                             (length (tour line_routing v) - 1)))
              /\ last_stop.2
                 = Z.of_N (cumulative_load_at
                             (demand_oracle line_routing)
                             (tour line_routing v)
                             (length (tour line_routing v) - 1)).
Proof.
  split; [exact line_printed_is_printed|].
  apply (totals_are_sums 3 three_points line_routing).
  - reflexivity.
  - exact line_routing_fuel.
Defined.

(** The tour of the first vehicle has three legs, of lengths 2, 1 and 1;
    the second vehicle stays at the depot. *)
Lemma route_distance_is_sum_of_legs_witness :
  (exists printed stops last_stop load,
     print_solution 3 three_points line_routing (assignment_of line_routing)
     = Ok printed
     /\ printed !! 1%nat
        = Some (RoutePlan 0 stops last_stop (2 + 1 + 1) load)
     /\ map fst stops ++ [last_stop.1] = [0; 2; 1; 0]%nat)
  /\ (exists printed,
        print_solution 3 three_points line_routing
                       (assignment_of line_routing)
        = Ok printed
        /\ printed !! 2%nat
           = Some (RoutePlan 1 [(0%nat, 0)] (0%nat, 0) 0 0)).
Proof.
  split.
  - destruct (route_distance_is_sum_of_legs
                3 three_points line_routing 0 [0; 2; 1; 0]%nat)
      as (printed & stops & last_stop & load & Hprinted & Hplan & Hnodes & _).
    + reflexivity.
    + exact line_routing_fuel.
    + simpl; lia.
    + reflexivity.
    + discriminate.
    + exists printed, stops, last_stop, load.
      split; [exact Hprinted|]. split; [exact Hplan|exact Hnodes].
  - destruct (route_distance_is_sum_of_legs
                3 three_points line_routing 1 [0; 0]%nat)
      as (printed & stops & last_stop & load & Hprinted & _ & _ & Hempty).
    + reflexivity.
    + exact line_routing_fuel.
    + simpl; lia.
    + reflexivity.
    + discriminate.
    + exists printed. split; [exact Hprinted|].
      apply Hempty; reflexivity.
Defined.

End PrinterWitnesses.

(* ================================================================== *)
(** ** The script end to end *)

Section Script.
Import Routing Cvrp Samples.

(** The load of the truncated route alone does not decide an insertion:
    customer 3 passes [can_append] at the depot end of a full tour, and
    the tour with it is over capacity. *)
Example truncated_load_is_not_enough :
  can_append unit_demand 2 (take 1 [0; 2; 1; 0]%nat) 3 = true
  /\ within_capacity unit_demand 2 (insert_at [0; 2; 1; 0]%nat 0 3) = false
  /\ feasible unit_demand 2 [0; 2; 1; 0]%nat 0 3 = false.
Proof. by vm_compute. Qed.

(** What a successful solve leaves in the routing object. *)
Lemma SolveWithParameters_ok (routing : RoutingModel)
    (search_parameters : SearchParameters) (solved : RoutingModel)
    (assignment : Assignment) :
  SolveWithParameters routing search_parameters = Ok (solved, assignment) ->
  assignment = assignment_of solved
  /\ (0 < nodes routing)%nat
  /\ arc_cost_evaluator solved = arc_cost_evaluator routing
  /\ dimension solved = dimension routing
  /\ result (construct (nodes routing) (vehicles routing)
                       (cost_oracle routing) (demand_oracle routing)
                       (capacity_bound routing))
     = Solution (tours solved).
Proof.
  unfold SolveWithParameters.
  destruct (depot_node routing =? 0); [|done].
  destruct (Nat.ltb_spec 0 (nodes routing)) as [Hn|]; [|done].
  destruct (answers (arc_cost_evaluator routing) (nodes routing)); [|done].
  simpl.
  destruct (match dimension routing with
            | Some d => answers (dim_evaluator d) (nodes routing)
            | None => true
            end); [|done].
  destruct (result _) as [solution|error|] eqn:Hres; simpl; try done.
  intros [= <- <-]. by simpl.
Qed.

(** A solve fails with one of the two errors of the taxonomy. *)
Lemma SolveWithParameters_raises (routing : RoutingModel)
    (search_parameters : SearchParameters) :
  (exists solved,
     SolveWithParameters routing search_parameters
     = Ok (solved, assignment_of solved))
  \/ SolveWithParameters routing search_parameters = Raise InvalidInstance
  \/ (exists stranded,
        SolveWithParameters routing search_parameters
        = Raise (ConstructionInfeasible stranded)).
Proof.
  unfold SolveWithParameters.
  destruct (_ && _); [|by right; left].
  destruct (construct_result (nodes routing) (vehicles routing)
              (cost_oracle routing) (demand_oracle routing)
              (capacity_bound routing))
    as [[sol ->]|[->|[stranded ->]]]; simpl.
  - left. by eexists.
  - by right; left.
  - right; right. by eexists.
Qed.

Lemma legs_distance_ext (f g : nat -> nat -> Z) (r : Route) :
  (forall a b, a ∈ r -> b ∈ r -> f a b = g a b) ->
  legs_distance f r = legs_distance g r.
Proof.
  induction r as [|a [|b r] IH]; intros Hfg; [done..|].
  change (f a b + legs_distance f (b :: r) = g a b + legs_distance g (b :: r)).
  rewrite IH, Hfg; [done|by left|by right; left|].
  intros a' b' Ha' Hb'. apply Hfg; by right.
Qed.

(** When [main] prints, what it prints is the report of the Solution the
    Route Constructor built for the data: one tour per vehicle, each from
    the depot to the depot over points of the instance, its distance the
    sum of the Manhattan distances of its legs; an unused vehicle is
    reported with distance 0 and load 0. *)
Lemma main_reports_tours (fuel : nat) (data : DataProblem)
    (printed : list Line) :
  main fuel data = Ok printed ->
  exists solution,
    length solution = num_vehicles data
    /\ forall v r,
         solution !! v = Some r ->
         tour_shaped r
         /\ (forall p, p ∈ r -> (p < num_locations data)%nat)
         /\ (exists stops last_stop load,
               printed !! S v
               = Some (RoutePlan
                         (Z.of_nat v) stops last_stop
                         (legs_distance
                            (fun i j =>
                               manhattan_distance
                                 (nth i (locations data) (0, 0))
                                 (nth j (locations data) (0, 0)))
                            r)
                         load)
               /\ map fst stops ++ [last_stop.1] = r)
         /\ (r = [0; 0]%nat ->
             printed !! S v
             = Some (RoutePlan (Z.of_nat v) [(0%nat, 0)] (0%nat, 0) 0 0)).
Proof.
  unfold main, CreateDistanceEvaluator_init.
  destruct (init_with_metric_lookup manhattan_distance data)
    as (distances & -> & Hlook).
  simpl.
  destruct (SolveWithParameters _ _) as [[solved assignment]| |] eqn:Hsolve;
    simpl; try done.
  apply SolveWithParameters_ok in Hsolve
    as (-> & Hn & Hcost & Hdim & Hres). simpl in *.
  intros Hprinted.
  destruct (construct_ok_reachable _ _ _ _ _ _ Hres)
    as (st & Hreach & _ & Htours).
  pose proof (reachable_consistent _ _ _ _ _ _ Hreach) as Hcons.
  destruct Hreach as [Hvalid _].
  apply valid_instance_spec in Hvalid as [Hdepot _].
  pose proof Hcons as (Hlen & Hshape & _).
  assert (forall i j,
            (i < num_locations data)%nat -> (j < num_locations data)%nat ->
            cost_oracle solved i j
            = manhattan_distance (nth i (locations data) (0, 0))
                                 (nth j (locations data) (0, 0)))
    as Horacle.
  { intros i j Hi Hj. unfold cost_oracle, asked. rewrite Hcost.
    rewrite Hlook by lia. rewrite stored_manhattan. by rewrite !Nat2Z.id. }
  assert (demand_oracle solved 0 = 0%N) as Hdepot'.
  { unfold demand_oracle in *. by rewrite Hdim. }
  exists (tours solved). split; [by rewrite <- Htours|].
  intros v r Hr.
  assert (r ∈ routes st) as Hin
    by (rewrite Htours; by eapply list_elem_of_lookup_2).
  assert (tour_shaped r) as Hs by (by eapply Forall_forall in Hshape).
  assert (forall p, p ∈ r -> (p < num_locations data)%nat) as Hpoints.
  { intros p Hp.
    by eapply (consistent_points (num_locations data)). }
  assert (r <> []) as Hne
    by (intros ->; destruct Hs as [Hl _]; simpl in Hl; lia).
  assert (v < num_vehicles data)%nat as Hv.
  { rewrite <- Hlen, Htours. by eapply lookup_lt_Some. }
  pose proof (printed_route _ _ _ _ _ _ Hprinted Hv Hr Hne) as Hplan.
  assert (legs_distance (cost_oracle solved) r
          = legs_distance
              (fun i j => manhattan_distance (nth i (locations data) (0, 0))
                                             (nth j (locations data) (0, 0)))
              r) as Hlegs.
  { apply legs_distance_ext. intros a b Ha Hb.
    apply Horacle; by apply Hpoints. }
  split; [done|]. split; [done|]. split.
  - eexists _, _, _. rewrite <- Hlegs. split; [exact Hplan|].
    rewrite map_map. simpl. rewrite map_nth_seq by lia.
    by apply take_all_but_last.
  - intros ->. rewrite Hplan. simpl.
    assert (tour solved v = [0; 0]%nat) as ->
      by (unfold tour; by apply nth_lookup_Some).
    unfold cumulative_load_at. simpl.
    rewrite Hdepot', (Horacle 0%nat 0%nat Hn Hn), manhattan_distance_diag.
    done.
Qed.

(** A demand above the capacity makes the script end with
    InvalidInstance, whatever else the data holds. *)
Lemma main_rejects_oversized_demand (fuel : nat) (data : DataProblem)
    (p : nat) (d : N) :
  demands data !! p = Some d ->
  (p < num_locations data)%nat ->
  (capacity (vehicle data) < d)%N ->
  main fuel data = Raise InvalidInstance.
Proof.
  intros Hd Hp Hbig. unfold main, CreateDistanceEvaluator_init.
  destruct (init_with_metric_lookup manhattan_distance data)
    as (distances & -> & _).
  simpl. unfold SolveWithParameters.
  destruct (_ && _); simpl; [|done].
  unfold construct.
  match goal with
  | |- context [valid_instance ?n ?dem ?cap] =>
      assert (valid_instance n dem cap = false) as ->; [|done]
  end.
  apply not_true_iff_false. intros [_ Hall]%valid_instance_spec.
  specialize (Hall p Hp). revert Hall.
  unfold demand_oracle, asked, demand_evaluator. simpl.
  destruct (getitem_in_range (demands data) (Z.of_nat p)) as (d' & Hd' & ->).
  { apply lookup_lt_Some in Hd. lia. }
  rewrite Nat2Z.id, Hd in Hd'. injection Hd' as <-.
  unfold capacity_bound. simpl. lia.
Qed.

(** The script on three points: both customers on the tour of the first
    vehicle, the second vehicle unused. *)
Example main_three_points :
  main 3 three_points
  = Ok [Objective 6;
        RoutePlan 0 [(0%nat, 0); (2%nat, 1); (1%nat, 2)] (0%nat, 2) 6 2;
        RoutePlan 1 [(0%nat, 0)] (0%nat, 0) 0 0;
        TotalDistance 6;
        TotalLoad 2].
Proof. by vm_compute. Qed.

(** On the data of the script itself the total demand, 60, is the total
    capacity of the four vehicles; the greedy insertion of section 4.3
    strands customer 15, and the script prints no solution. *)
Example main_script_data :
  main 17 DataProblem_init = Raise (ConstructionInfeasible [15%nat]).
Proof. by vm_compute. Qed.

(** A fifth vehicle lets the construction finish on the same data. *)
Example construct_script_data_five_vehicles :
  result
    (construct 17 5
       (fun i j => manhattan_distance
                     (nth i (locations DataProblem_init) (0, 0))
                     (nth j (locations DataProblem_init) (0, 0)))
       (fun p => nth p (demands DataProblem_init) 0%N) 15)
  = Solution [[0; 9; 6; 5; 7; 0]; [0; 2; 10; 14; 8; 0];
        [0; 1; 3; 4; 11; 12; 13; 0]; [0; 16; 0]; [0; 15; 0]]%nat.
Proof. by vm_compute. Qed.

End Script.

(* ================================================================== *)
(** ** More on the metric and the two evaluators *)

Section MoreEvaluators.
Import Cvrp Samples.

Lemma manhattan_distance_nonneg (p q : Z * Z) : 0 <= manhattan_distance p q.
Proof. unfold manhattan_distance. lia. Qed.

Lemma manhattan_distance_zero (p q : Z * Z) :
  manhattan_distance p q = 0 <-> p = q.
Proof.
  destruct p as [px py], q as [qx qy]. unfold manhattan_distance. simpl.
  split; [intros H; f_equal; lia|intros [= -> ->]; lia].
Qed.

Lemma manhattan_distance_triangle (p q r : Z * Z) :
  manhattan_distance p r <= manhattan_distance p q + manhattan_distance q r.
Proof. unfold manhattan_distance. lia. Qed.

(** X1: [manhattan_distance] is a metric on the plane: never negative,
    zero between a point and itself only, and it obeys the triangle
    inequality. *)
Theorem manhattan_distance_metric (p q r : Z * Z) :
  0 <= manhattan_distance p q
  /\ (manhattan_distance p q = 0 <-> p = q)
  /\ manhattan_distance p r
     <= manhattan_distance p q + manhattan_distance q r.
Proof.
  destruct p as [px py], q as [qx qy], r as [rx ry].
  unfold manhattan_distance. simpl. split; [lia|]. split; [|lia].
  split.
  - intros H. f_equal; lia.
  - intros [= -> ->]. lia.
Qed.

(** Scaling the two coordinates, as [DataProblem.__init__] does with the
    block width and height, scales the two parts of the distance. *)
Lemma manhattan_distance_scaled (w h : Z) (p q : Z * Z) :
  0 <= w -> 0 <= h ->
  manhattan_distance (p.1 * w, p.2 * h) (q.1 * w, q.2 * h)
  = w * Z.abs (p.1 - q.1) + h * Z.abs (p.2 - q.2).
Proof.
  intros Hw Hh. unfold manhattan_distance. simpl.
  rewrite <- !Z.mul_sub_distr_r, !Z.abs_mul.
  rewrite (Z.abs_eq w), (Z.abs_eq h) by done. lia.
Qed.

(** The whole dict [__init__] builds: a row for every index of
    [xrange(num_locations)] and no other, and in every row an entry for
    every such index and no other. *)
Lemma init_with_metric_dict (metric : Z * Z -> Z * Z -> Z)
    (data : DataProblem) :
  exists oracle,
    init_with_metric metric data = Ok oracle
    /\ forall i,
         _distances oracle !! i
         = if decide (i ∈ xrange (num_locations data))
           then Some (foldl (fun r t => <[t := stored metric data i t]> r)
                            ∅ (xrange (num_locations data)))
           else None.
Proof.
  unfold init_with_metric.
  rewrite outer_loop_fills by (intros f; apply elem_of_xrange).
  simpl. eexists. split; [reflexivity|].
  intros i. simpl.
  rewrite (lookup_foldl_insert
             (fun f => foldl (fun r t => <[t := stored metric data f t]> r)
                             ∅ (xrange (num_locations data)))).
  by destruct (decide _).
Qed.

(** X3: outside the matrix the distance callback raises [KeyError], for the
    first subscript that misses: [from_node] when it is no index of a
    location, otherwise [to_node]; a negative subscript does not count
    from the end. *)
Theorem distance_evaluator_key_error (data : DataProblem)
    (from_node to_node : Z) :
  ~ (0 <= from_node < Z.of_nat (num_locations data)
     /\ 0 <= to_node < Z.of_nat (num_locations data)) ->
  exists oracle,
    CreateDistanceEvaluator_init data = Ok oracle
    /\ distance_evaluator oracle from_node to_node
       = Raise (KeyError
                  (if decide (0 <= from_node < Z.of_nat (num_locations data))
                   then to_node else from_node)).
Proof.
  intros Hout.
  destruct (init_with_metric_dict manhattan_distance data)
    as (oracle & Hinit & Hdict).
  exists oracle. split; [done|].
  unfold distance_evaluator, dict_get. rewrite Hdict.
  destruct (decide (from_node ∈ xrange (num_locations data)))
    as [Hin%elem_of_xrange|Hnot].
  - rewrite decide_True by done. simpl.
    rewrite (lookup_foldl_insert (stored manhattan_distance data from_node)).
    rewrite decide_False; [done|]. intros Hto%elem_of_xrange. tauto.
  - rewrite decide_False; [done|]. intros H. by apply Hnot, elem_of_xrange.
Qed.

Lemma distance_evaluator_key_error_witness :
  ~ (0 <= -1 < Z.of_nat (num_locations DataProblem_init)
     /\ 0 <= 3 < Z.of_nat (num_locations DataProblem_init))
  /\ exists oracle,
       CreateDistanceEvaluator_init DataProblem_init = Ok oracle
       /\ distance_evaluator oracle (-1) 3
          = Raise (KeyError
                     (if decide (0 <= -1
                                 < Z.of_nat (num_locations DataProblem_init))
                      then 3 else -1)).
Proof.
  assert (~ (0 <= -1 < Z.of_nat (num_locations DataProblem_init)
             /\ 0 <= 3 < Z.of_nat (num_locations DataProblem_init))) as Hout
    by lia.
  split; [exact Hout|].
  exact (distance_evaluator_key_error DataProblem_init (-1) 3 Hout).
Defined.

Lemma NoDup_xrange (n : nat) : NoDup (xrange n).
Proof.
  unfold xrange. apply NoDup_fmap; [|apply NoDup_seq].
  intros a b. apply Nat2Z.inj.
Qed.

Lemma size_filled_row {V} (f : Z -> V) (n : nat) :
  size (foldl (fun r t => <[t := f t]> r) (∅ : gmap Z V) (xrange n)) = n.
Proof.
  rewrite <- size_dom.
  assert (dom (foldl (fun r t => <[t := f t]> r) (∅ : gmap Z V) (xrange n))
          = list_to_set (xrange n)) as ->.
  { apply set_eq. intros k.
    rewrite elem_of_dom, lookup_foldl_insert, elem_of_list_to_set.
    destruct (decide (k ∈ xrange n)) as [Hin|Hout].
    - split; [done|]. by eexists.
    - rewrite lookup_empty. split; [by intros []|done]. }
  rewrite size_list_to_set by apply NoDup_xrange.
  unfold xrange. by rewrite length_fmap, length_seq.
Qed.

(** X4: the matrix is square: [num_locations] rows of [num_locations]
    entries each, whatever the locations are. *)
Theorem distance_matrix_square (data : DataProblem) :
  exists oracle,
    CreateDistanceEvaluator_init data = Ok oracle
    /\ size (_distances oracle) = num_locations data
    /\ forall i row,
         _distances oracle !! i = Some row -> size row = num_locations data.
Proof.
  destruct (init_with_metric_dict manhattan_distance data)
    as (oracle & Hinit & Hdict).
  exists oracle. split; [done|]. split.
  - rewrite <- size_dom.
    assert (dom (_distances oracle)
            = list_to_set (xrange (num_locations data))) as ->.
    { apply set_eq. intros k.
      rewrite elem_of_dom, Hdict, elem_of_list_to_set.
      destruct (decide (k ∈ xrange (num_locations data))).
      - split; [done|]. by eexists.
      - split; [by intros []|done]. }
    rewrite size_list_to_set by apply NoDup_xrange.
    unfold xrange. by rewrite length_fmap, length_seq.
  - intros i row. rewrite Hdict.
    destruct (decide _); [|done]. intros [= <-]. apply size_filled_row.
Qed.

(** X2: the cached distances inherit the metric laws: between points of the
    instance they are never negative, vanish exactly when the two
    locations coincide, and obey the triangle inequality. *)
Theorem distance_oracle_triangle (data : DataProblem) (i j k : Z) :
  0 <= i < Z.of_nat (num_locations data) ->
  0 <= j < Z.of_nat (num_locations data) ->
  0 <= k < Z.of_nat (num_locations data) ->
  exists oracle d_ij d_jk d_ik,
    CreateDistanceEvaluator_init data = Ok oracle
    /\ distance_evaluator oracle i j = Ok d_ij
    /\ distance_evaluator oracle j k = Ok d_jk
    /\ distance_evaluator oracle i k = Ok d_ik
    /\ 0 <= d_ij
    /\ (d_ij = 0 <->
        locations data !! Z.to_nat i = locations data !! Z.to_nat j)
    /\ d_ik <= d_ij + d_jk.
Proof.
  intros Hi Hj Hk.
  destruct (init_with_metric_lookup manhattan_distance data)
    as (oracle & Hinit & Hlook).
  exists oracle. eexists _, _, _. split; [done|].
  rewrite (Hlook i j Hi Hj), (Hlook j k Hj Hk), (Hlook i k Hi Hk).
  rewrite !stored_manhattan.
  split; [done|]. split; [done|]. split; [done|].
  destruct (lookup_lt_is_Some_2 (locations data) (Z.to_nat i)) as [p Hp];
    [unfold num_locations in Hi; lia|].
  destruct (lookup_lt_is_Some_2 (locations data) (Z.to_nat j)) as [q Hq];
    [unfold num_locations in Hj; lia|].
  rewrite Hp, Hq, (nth_lookup_Some _ _ _ _ Hp), (nth_lookup_Some _ _ _ _ Hq).
  split; [apply manhattan_distance_nonneg|].
  split; [|apply manhattan_distance_triangle].
  rewrite manhattan_distance_zero.
  split; [by intros ->|by intros [= ->]].
Qed.

Lemma distance_oracle_triangle_witness :
  exists oracle d_ij d_jk d_ik,
    CreateDistanceEvaluator_init DataProblem_init = Ok oracle
    /\ distance_evaluator oracle 1 9 = Ok d_ij
    /\ distance_evaluator oracle 9 16 = Ok d_jk
    /\ distance_evaluator oracle 1 16 = Ok d_ik
    /\ 0 <= d_ij
    /\ (d_ij = 0 <->
        locations DataProblem_init !! Z.to_nat 1
        = locations DataProblem_init !! Z.to_nat 9)
    /\ d_ik <= d_ij + d_jk.
Proof.
  apply (distance_oracle_triangle DataProblem_init 1 9 16);
    vm_compute; split; (discriminate || reflexivity).
Defined.

(** X6: a negative [from_node] reaches the demand list from its end: for
    [-len <= from_node < 0] the callback returns
    [demands[len + from_node]] instead of raising. *)
Theorem demand_evaluator_negative_index (data : DataProblem)
    (from_node to_node : Z) :
  - Z.of_nat (length (demands data)) <= from_node < 0 ->
  exists d,
    demands data !! Z.to_nat (Z.of_nat (length (demands data)) + from_node)
    = Some d
    /\ demand_evaluator (CreateDemandEvaluator_init data) from_node to_node
       = Ok d.
Proof.
  intros Hfrom. unfold demand_evaluator, getitem. simpl.
  destruct (Z.ltb_spec from_node 0) as [_|?]; [|lia].
  destruct (Z.leb_spec 0 (from_node + Z.of_nat (length (demands data))))
    as [_|?]; [|lia].
  destruct (Z.ltb_spec (from_node + Z.of_nat (length (demands data)))
                       (Z.of_nat (length (demands data)))) as [_|?]; [|lia].
  simpl. rewrite (Z.add_comm from_node).
  destruct (lookup_lt_is_Some_2
              (demands data)
              (Z.to_nat (Z.of_nat (length (demands data)) + from_node)))
    as [d Hd]; [lia|].
  exists d. by rewrite Hd.
Qed.

Lemma demand_evaluator_negative_index_witness :
  (- Z.of_nat (length (demands DataProblem_init)) <= -1 < 0)
  /\ exists d,
       demands DataProblem_init
         !! Z.to_nat (Z.of_nat (length (demands DataProblem_init)) + -1)
       = Some d
       /\ demand_evaluator (CreateDemandEvaluator_init DataProblem_init)
                           (-1) 0
          = Ok d.
Proof.
  split; [vm_compute; split; discriminate || reflexivity|].
  apply (demand_evaluator_negative_index DataProblem_init (-1) 0).
  vm_compute; split; discriminate || reflexivity.
Defined.

(** X7: outside [-len, len) the demand callback raises [IndexError]; in
    particular it does so for every [from_node] when there are no
    demands, and for a location index that has no demand. *)
Theorem demand_evaluator_index_error (data : DataProblem)
    (from_node to_node : Z) :
  from_node < - Z.of_nat (length (demands data))
  \/ Z.of_nat (length (demands data)) <= from_node ->
  demand_evaluator (CreateDemandEvaluator_init data) from_node to_node
  = Raise IndexError.
Proof.
  intros Hfrom. unfold demand_evaluator, getitem. simpl.
  destruct (Z.ltb_spec from_node 0) as [Hneg|Hpos].
  - destruct (Z.leb_spec 0 (from_node + Z.of_nat (length (demands data))))
      as [?|_]; [lia|done].
  - destruct (Z.leb_spec 0 from_node) as [_|?]; [|lia].
    destruct (Z.ltb_spec from_node (Z.of_nat (length (demands data))))
      as [?|_]; [lia|done].
Qed.

Lemma demand_evaluator_index_error_witness :
  (17 < - Z.of_nat (length (demands DataProblem_init))
   \/ Z.of_nat (length (demands DataProblem_init)) <= 17)
  /\ demand_evaluator (CreateDemandEvaluator_init DataProblem_init) 17 0
     = Raise IndexError.
Proof.
  assert (17 < - Z.of_nat (length (demands DataProblem_init))
          \/ Z.of_nat (length (demands DataProblem_init)) <= 17) as Hout
    by (right; vm_compute; discriminate).
  split; [exact Hout|].
  exact (demand_evaluator_index_error DataProblem_init 17 0 Hout).
Defined.

(** X5: when the locations are block coordinates scaled by a block width and
    height, as in [DataProblem.__init__], the cached distance between two
    points is the width times the horizontal block count plus the height
    times the vertical block count. *)
Theorem distance_oracle_in_blocks (data : DataProblem)
    (blocks : list (Z * Z)) (w h : Z) (i j : Z) :
  locations data = map (fun loc => (loc.1 * w, loc.2 * h)) blocks ->
  0 <= w -> 0 <= h ->
  0 <= i < Z.of_nat (length blocks) ->
  0 <= j < Z.of_nat (length blocks) ->
  exists oracle b_i b_j,
    CreateDistanceEvaluator_init data = Ok oracle
    /\ blocks !! Z.to_nat i = Some b_i
    /\ blocks !! Z.to_nat j = Some b_j
    /\ distance_evaluator oracle i j
       = Ok (w * Z.abs (b_i.1 - b_j.1) + h * Z.abs (b_i.2 - b_j.2)).
Proof.
  intros Hloc Hw Hh Hi Hj.
  destruct (init_with_metric_lookup manhattan_distance data)
    as (oracle & Hinit & Hlook).
  destruct (lookup_lt_is_Some_2 blocks (Z.to_nat i)) as [b_i Hbi]; [lia|].
  destruct (lookup_lt_is_Some_2 blocks (Z.to_nat j)) as [b_j Hbj]; [lia|].
  exists oracle, b_i, b_j. repeat split; try done.
  assert (num_locations data = length blocks) as Hn
    by (unfold num_locations; by rewrite Hloc, length_map).
  rewrite Hlook, stored_manhattan by (rewrite Hn; lia).
  assert (forall k b, blocks !! k = Some b ->
                      nth k (locations data) (0, 0) = (b.1 * w, b.2 * h))
    as Hnth.
  { intros k b Hb. apply nth_lookup_Some.
    by rewrite Hloc, list_lookup_fmap, Hb. }
  rewrite (Hnth _ _ Hbi), (Hnth _ _ Hbj).
  by rewrite (manhattan_distance_scaled w h b_i b_j).
Qed.

Lemma distance_oracle_in_blocks_witness :
  exists oracle b_i b_j,
    CreateDistanceEvaluator_init DataProblem_init = Ok oracle
    /\ block_locations !! Z.to_nat 2 = Some b_i
    /\ block_locations !! Z.to_nat 15 = Some b_j
    /\ distance_evaluator oracle 2 15
       = Ok (114 * Z.abs (b_i.1 - b_j.1) + 80 * Z.abs (b_i.2 - b_j.2)).
Proof.
  apply (distance_oracle_in_blocks DataProblem_init block_locations 114 80
                                   2 15).
  - reflexivity.
  - lia.
  - lia.
  - vm_compute; split; discriminate || reflexivity.
  - vm_compute; split; discriminate || reflexivity.
Defined.

Lemma distance_matrix_square_witness :
  exists oracle,
    CreateDistanceEvaluator_init DataProblem_init = Ok oracle
    /\ size (_distances oracle) = num_locations DataProblem_init
    /\ forall i row,
         _distances oracle !! i = Some row ->
         size row = num_locations DataProblem_init.
Proof.
  exact (distance_matrix_square DataProblem_init).
Defined.

End MoreEvaluators.

(* ================================================================== *)
(** ** More on the printer *)

Section MorePrinter.
Import Routing Cvrp Samples Traversal.

(** The [while] loop with its accumulators: it follows the successors of
    [index] up to the first end index, appends one stop per index passed
    and adds one arc cost per step. *)
Lemma follow_route_steps (routing : RoutingModel) (assignment : Assignment)
    (name : string) (vehicle_id : Z) (fuel : nat) :
  forall (index : Index) (plan_output : list (nat * Z)) (distance : Z)
         (last : Index) (stops : list (nat * Z)) (distance' : Z),
    follow_route fuel routing assignment name vehicle_id index plan_output
                 distance
    = Ok (last, stops, distance') ->
    exists k,
      (k <= fuel)%nat
      /\ last = Nat.iter k (NextValue assignment) index
      /\ IsEnd routing last = true
      /\ Forall (fun i => IsEnd routing i = false)
                (successors assignment k index)
      /\ stops
         = plan_output
           ++ map (fun i => (IndexToNode routing i,
                             CumulValue assignment name i))
                  (successors assignment k index)
      /\ distance'
         = distance
           + sum_Z (map (fun i =>
                           GetArcCostForVehicle
                             routing i (NextValue assignment i) vehicle_id)
                        (successors assignment k index)).
Proof.
  induction fuel as [|fuel IH];
    intros index plan_output distance last stops distance'; simpl;
    destruct (IsEnd routing index) eqn:Hend; try done.
  - intros [= <- <- <-]. exists 0%nat. simpl.
    rewrite app_nil_r, Z.add_0_r. repeat split; try done; lia.
  - intros [= <- <- <-]. exists 0%nat. simpl.
    rewrite app_nil_r, Z.add_0_r. repeat split; try done; lia.
  - intros (k & Hk & -> & Hlast & Hbefore & -> & ->)%IH.
    exists (S k). split; [lia|].
    split; [by rewrite Nat.iter_succ_r|].
    split; [done|].
    split; [by constructor|].
    cbn [successors map]. rewrite <- app_assoc.
    split; [done|].
    change (sum_Z (?a :: ?l)) with (a + sum_Z l). lia.
Qed.

(** X8: the walk printed for a route, for any routing and assignment objects:
    the loop stops at the first end index among the successors of the
    start index; the stops are the indices before it, each printed with
    its node and its load; the distance is the sum of the arc costs from
    each of them to its successor. *)
Theorem follow_route_walk (fuel : nat) (routing : RoutingModel)
    (assignment : Assignment) (name : string) (vehicle_id : Z)
    (last : Index) (stops : list (nat * Z)) (distance : Z) :
  follow_route fuel routing assignment name vehicle_id
               (Start routing vehicle_id) [] 0
  = Ok (last, stops, distance) ->
  exists k,
    (k <= fuel)%nat
    /\ last = Nat.iter k (NextValue assignment) (Start routing vehicle_id)
    /\ IsEnd routing last = true
    /\ Forall (fun i => IsEnd routing i = false)
              (successors assignment k (Start routing vehicle_id))
    /\ stops
       = map (fun i => (IndexToNode routing i, CumulValue assignment name i))
             (successors assignment k (Start routing vehicle_id))
    /\ distance
       = sum_Z (map (fun i =>
                       GetArcCostForVehicle
                         routing i (NextValue assignment i) vehicle_id)
                    (successors assignment k (Start routing vehicle_id))).
Proof.
  intros (k & Hk & Hlast & Hend & Hbefore & Hstops & Hd)%follow_route_steps.
  exists k. rewrite Hstops, Hd. simpl. rewrite Z.add_0_l. done.
Qed.

Lemma follow_route_walk_witness :
  exists k,
    (k <= 3)%nat
    /\ (0%nat, 3%nat)
       = Nat.iter k (NextValue (assignment_of line_routing))
                  (Start line_routing 0)
    /\ IsEnd line_routing (0%nat, 3%nat) = true
    /\ Forall (fun i => IsEnd line_routing i = false)
              (successors (assignment_of line_routing) k
                          (Start line_routing 0))
    /\ [(0%nat, 0); (2%nat, 1); (1%nat, 2)]
       = map (fun i => (IndexToNode line_routing i,
                        CumulValue (assignment_of line_routing) "Capacity" i))
             (successors (assignment_of line_routing) k
                         (Start line_routing 0))
    /\ 4
       = sum_Z (map (fun i =>
                       GetArcCostForVehicle
                         line_routing i
                         (NextValue (assignment_of line_routing) i) 0)
                    (successors (assignment_of line_routing) k
                                (Start line_routing 0))).
Proof.
  apply (follow_route_walk 3 line_routing (assignment_of line_routing)
                           "Capacity" 0).
  vm_compute; reflexivity.
Defined.

(** X9: the text [print_solution] prints, line by line: the objective first,
    then one plan per vehicle in the order of the vehicle ids, each ending
    with the load of its last stop as the load of the route, then the two
    totals; with no vehicle the totals are 0. *)
Theorem print_solution_layout (fuel : nat) (data : DataProblem)
    (routing : RoutingModel) (assignment : Assignment)
    (printed : list Line) :
  print_solution fuel data routing assignment = Ok printed ->
  length printed = (num_vehicles data + 3)%nat
  /\ printed !! 0%nat = Some (Objective (ObjectiveValue assignment))
  /\ (forall v, (v < num_vehicles data)%nat ->
        exists stops last_stop distance,
          printed !! S v
          = Some (RoutePlan (Z.of_nat v) stops last_stop distance
                            last_stop.2))
  /\ (exists meters load,
        printed !! S (num_vehicles data) = Some (TotalDistance meters)
        /\ printed !! S (S (num_vehicles data)) = Some (TotalLoad load))
  /\ (num_vehicles data = 0%nat ->
      printed = [Objective (ObjectiveValue assignment);
                 TotalDistance 0; TotalLoad 0]).
Proof.
  intros (plans & -> & Hplans)%print_solution_printed.
  pose proof (Forall2_length _ _ _ Hplans) as Hlen.
  unfold xrange in Hlen. rewrite length_fmap, length_seq in Hlen.
  split; [simpl; rewrite length_app; simpl; lia|].
  split; [done|]. split; [|split].
  - intros v Hv.
    assert (xrange (num_vehicles data) !! v = Some (Z.of_nat v)) as Hid.
    { unfold xrange. rewrite list_lookup_fmap, lookup_seq_lt by done. done. }
    destruct (Forall2_lookup_l _ _ _ _ _ Hplans Hid)
      as (plan & Hplan & index & stops & distance & _ & _ & ->).
    eexists stops, _, distance. simpl.
    rewrite lookup_app_l by lia. exact Hplan.
  - eexists _, _. simpl. rewrite Hlen.
    rewrite !lookup_app_r by lia.
    rewrite Nat.sub_diag.
    replace (S (length plans) - length plans)%nat with 1%nat by lia.
    done.
  - intros Hzero. rewrite Hzero in Hlen.
    destruct plans; [done|simpl in Hlen; lia].
Qed.

Lemma print_solution_layout_witness :
  length line_printed = (num_vehicles three_points + 3)%nat
  /\ line_printed !! 0%nat
     = Some (Objective (ObjectiveValue (assignment_of line_routing)))
  /\ (forall v, (v < num_vehicles three_points)%nat ->
        exists stops last_stop distance,
          line_printed !! S v
          = Some (RoutePlan (Z.of_nat v) stops last_stop distance
                            last_stop.2))
  /\ (exists meters load,
        line_printed !! S (num_vehicles three_points)
        = Some (TotalDistance meters)
        /\ line_printed !! S (S (num_vehicles three_points))
           = Some (TotalLoad load))
  /\ (num_vehicles three_points = 0%nat ->
      line_printed
      = [Objective (ObjectiveValue (assignment_of line_routing));
         TotalDistance 0; TotalLoad 0]).
Proof.
  apply (print_solution_layout 3 three_points line_routing
                               (assignment_of line_routing) line_printed).
  vm_compute; reflexivity.
Defined.

(** A walk whose successors never reach an end index uses up any fuel. *)
Lemma follow_route_loops (routing : RoutingModel) (assignment : Assignment)
    (name : string) (vehicle_id : Z) (fuel : nat) :
  forall (index : Index) (plan_output : list (nat * Z)) (distance : Z),
    (forall j, IsEnd routing (Nat.iter j (NextValue assignment) index)
               = false) ->
    follow_route fuel routing assignment name vehicle_id index plan_output
                 distance
    = OutOfFuel.
Proof.
  induction fuel as [|fuel IH]; intros index plan_output distance Hloop;
    pose proof (Hloop 0%nat) as Hstart; simpl in Hstart;
    simpl; rewrite Hstart; [done|].
  apply IH. intros j. rewrite <- Nat.iter_succ_r. apply Hloop.
Qed.

(** The body of the vehicle loop raises nothing. *)
Lemma report_route_no_raise (fuel : nat) (routing : RoutingModel)
    (assignment : Assignment) (name : string) (vehicle_id : Z)
    (acc : list Line * Z * Z) (e : exn) :
  report_route fuel routing assignment name vehicle_id acc <> Raise e.
Proof.
  destruct acc as [[printed total_distance] total_load].
  unfold report_route.
  assert (forall e0 k index plan_output distance,
            follow_route k routing assignment name vehicle_id index
                         plan_output distance <> Raise e0) as Hwalk.
  { intros e0. induction k as [|k IH]; intros index plan_output distance;
      simpl; destruct (IsEnd routing index); try done; apply IH. }
  destruct (follow_route fuel routing assignment name vehicle_id
              (Start routing vehicle_id) [] 0)
    as [[[index stops] distance]|e'|] eqn:Hfollow; simpl; try done.
  by destruct (Hwalk e' fuel (Start routing vehicle_id) [] 0).
Qed.

Lemma for_each_report_route_no_raise (fuel : nat) (routing : RoutingModel)
    (assignment : Assignment) (name : string) (vehicle_ids : list Z)
    (e : exn) :
  forall acc,
    for_each vehicle_ids (report_route fuel routing assignment name) acc
    <> Raise e.
Proof.
  induction vehicle_ids as [|vehicle_id vehicle_ids IH]; intros acc; simpl;
    [done|].
  destruct (report_route fuel routing assignment name vehicle_id acc)
    as [acc'|e'|] eqn:Hbody; simpl; [apply IH| |done].
  by destruct (report_route_no_raise fuel routing assignment name vehicle_id
                 acc e').
Qed.

Lemma for_each_report_route_loops (fuel : nat) (routing : RoutingModel)
    (assignment : Assignment) (name : string) (vehicle_ids : list Z)
    (vehicle_id : Z) :
  vehicle_id ∈ vehicle_ids ->
  (forall j, IsEnd routing
               (Nat.iter j (NextValue assignment) (Start routing vehicle_id))
             = false) ->
  forall acc,
    for_each vehicle_ids (report_route fuel routing assignment name) acc
    = OutOfFuel.
Proof.
  intros Hin Hloop.
  induction vehicle_ids as [|v vehicle_ids IH]; intros acc;
    [by apply elem_of_nil in Hin|].
  simpl.
  destruct (report_route fuel routing assignment name v acc)
    as [acc'|e|] eqn:Hbody; simpl; [| |done].
  - apply elem_of_cons in Hin as [->|Hin]; [|by apply IH].
    destruct acc as [[printed total_distance] total_load].
    unfold report_route in Hbody.
    by rewrite (follow_route_loops _ _ _ _ _ _ _ _ Hloop) in Hbody.
  - by destruct (report_route_no_raise fuel routing assignment name v acc e).
Qed.

(** X10: the [while] loop of the printer has no bound of its own: when the
    successors of the start index of some vehicle never reach an end
    index, [print_solution] does not return, whatever the fuel. *)
Theorem print_solution_never_returns (fuel : nat) (data : DataProblem)
    (routing : RoutingModel) (assignment : Assignment) (v : nat) :
  GetDimensionOrDie routing "Capacity" = Ok "Capacity"%string ->
  (v < num_vehicles data)%nat ->
  (forall j, IsEnd routing
               (Nat.iter j (NextValue assignment)
                         (Start routing (Z.of_nat v)))
             = false) ->
  print_solution fuel data routing assignment = OutOfFuel.
Proof.
  intros Hdim Hv Hloop. unfold print_solution, bind.
  rewrite Hdim. cbv beta iota.
  rewrite (for_each_report_route_loops
             fuel routing assignment "Capacity"
             (xrange (num_vehicles data)) (Z.of_nat v)); [done| |done].
  apply elem_of_xrange. lia.
Qed.

Lemma looping_assignment_loops (j : nat) :
  Nat.iter j (NextValue looping_assignment) (Start line_routing 0)
  = (0%nat, 0%nat).
Proof.
  induction j as [|j IH]; [done|]. by rewrite Nat.iter_succ, IH.
Defined.

Lemma print_solution_never_returns_witness :
  print_solution 1000 three_points line_routing looping_assignment
  = OutOfFuel.
Proof.
  apply (print_solution_never_returns 1000 three_points line_routing
                                      looping_assignment 0).
  - reflexivity.
  - simpl; lia.
  - intros j.
    change (IsEnd line_routing
                  (Nat.iter j (NextValue looping_assignment)
                            (Start line_routing 0)) = false).
    rewrite looping_assignment_loops. reflexivity.
Defined.

Lemma sum_Z_nonneg (values : list Z) :
  Forall (fun x => 0 <= x) values -> 0 <= sum_Z values.
Proof.
  induction 1 as [|x values Hx _ IH]; simpl; [done|].
  fold (sum_Z values). lia.
Qed.

(** The arc costs of the script's distance callback are never negative,
    for points of the instance and for any other index alike. *)
Lemma script_cost_oracle_nonneg (data : DataProblem)
    (oracle : CreateDistanceEvaluator) (routing : RoutingModel) (i j : nat) :
  CreateDistanceEvaluator_init data = Ok oracle ->
  arc_cost_evaluator routing = distance_evaluator oracle ->
  0 <= cost_oracle routing i j.
Proof.
  intros Hinit Hcost.
  destruct (init_with_metric_dict manhattan_distance data)
    as (oracle' & Hinit' & Hdict).
  unfold CreateDistanceEvaluator_init in Hinit.
  rewrite Hinit' in Hinit. injection Hinit as <-.
  unfold cost_oracle, asked. rewrite Hcost.
  unfold distance_evaluator, dict_get. rewrite Hdict.
  destruct (decide _); [|done]. simpl.
  rewrite (lookup_foldl_insert (stored manhattan_distance data (Z.of_nat i))).
  destruct (decide _); [|done].
  rewrite stored_manhattan. apply manhattan_distance_nonneg.
Qed.

(** X12: with the distance callback of the script as arc cost evaluator, as
    [main] registers it, no distance the printer reports is negative:
    neither the distance of a route nor the total. *)
Theorem reported_distances_nonnegative (fuel : nat)
    (data printed_for : DataProblem) (oracle : CreateDistanceEvaluator)
    (routing : RoutingModel) (assignment : Assignment)
    (printed : list Line) :
  CreateDistanceEvaluator_init data = Ok oracle ->
  arc_cost_evaluator routing = distance_evaluator oracle ->
  print_solution fuel printed_for routing assignment = Ok printed ->
  Forall (fun line => 0 <= plan_distance line) printed
  /\ exists meters,
       printed !! S (num_vehicles printed_for) = Some (TotalDistance meters)
       /\ 0 <= meters.
Proof.
  intros Hinit Hcost (plans & -> & Hplans)%print_solution_printed.
  assert (Forall (fun line => 0 <= plan_distance line) plans) as Hnonneg.
  { apply Forall_forall. intros plan Hplan.
    apply list_elem_of_lookup in Hplan as [v Hv].
    destruct (Forall2_lookup_r _ _ _ _ _ Hplans Hv)
      as (vehicle_id & _ & index & stops & distance & Hwalk & _ & ->).
    apply follow_route_steps in Hwalk as (k & _ & _ & _ & _ & _ & ->).
    simpl. apply sum_Z_nonneg, Forall_forall.
    intros x (i & -> & _)%list_elem_of_fmap.
    unfold GetArcCostForVehicle.
    by apply (script_cost_oracle_nonneg data oracle). }
  pose proof (Forall2_length _ _ _ Hplans) as Hlen.
  unfold xrange in Hlen. rewrite length_fmap, length_seq in Hlen.
  split.
  - constructor; [done|]. apply Forall_app. split; [done|].
    by repeat constructor.
  - eexists. simpl. rewrite Hlen, lookup_app_r, Nat.sub_diag by lia.
    split; [reflexivity|].
    apply sum_Z_nonneg, Forall_forall.
    intros x (plan & -> & Hplan)%list_elem_of_fmap.
    by apply (proj1 (Forall_forall _ _) Hnonneg).
Qed.

Lemma reported_distances_nonnegative_witness :
  CreateDistanceEvaluator_init three_points = Ok three_points_oracle
  /\ Forall (fun line => 0 <= plan_distance line)
            [Objective 6;
             RoutePlan 0 [(0%nat, 0); (2%nat, 1); (1%nat, 2)] (0%nat, 2) 6 2;
             RoutePlan 1 [(0%nat, 0)] (0%nat, 0) 0 0;
             TotalDistance 6;
             TotalLoad 2]
  /\ exists meters,
       [Objective 6;
        RoutePlan 0 [(0%nat, 0); (2%nat, 1); (1%nat, 2)] (0%nat, 2) 6 2;
        RoutePlan 1 [(0%nat, 0)] (0%nat, 0) 0 0;
        TotalDistance 6;
        TotalLoad 2] !! S (num_vehicles three_points)
       = Some (TotalDistance meters)
       /\ 0 <= meters.
Proof.
  split; [vm_compute; reflexivity|].
  apply (reported_distances_nonnegative
           3 three_points three_points three_points_oracle
           three_points_routing (assignment_of three_points_routing)).
  - vm_compute; reflexivity.
  - reflexivity.
  - vm_compute; reflexivity.
Defined.

End MorePrinter.
